(** * Closed-caption paragraph reconstruction (src/common/cc_parser.py)

    A shallow embedding of [parse_cc] and of the functions it calls
    ([load_data], the text layer of [open]), with the Python values, the
    exceptions and the files the code works on, followed by the properties
    of the reconstruction pass and of its persistence step. *)

From Stdlib Require Import ZArith NArith String Ascii List Bool Lia.
From Stdlib Require Import Floats.PrimFloat.
From stdpp Require Import base list gmap.

Local Open Scope N_scope.
Local Set Warnings "-register-all".

(** ** Python strings

    A Python [str] is a sequence of Unicode code points; [pystr] keeps the
    code points as numbers, so that [str.strip] can be given on the whole
    of Unicode as CPython computes it. *)

Abbreviation pystr := (list N).

(** A string literal of the source, character by character (the literals
    of the source are ASCII). *)
Definition py (s : string) : pystr :=
  map N_of_ascii (list_ascii_of_string s).

Arguments py : simpl never.

Module Str.

(** [Py_UNICODE_ISSPACE]: the characters [str.strip()] removes when it is
    called without an argument. *)
Definition isspace (c : N) : bool :=
  ((0x09 <=? c) && (c <=? 0x0D))
  || ((0x1C <=? c) && (c <=? 0x1F))
  || (c =? 0x20) || (c =? 0x85) || (c =? 0xA0) || (c =? 0x1680)
  || ((0x2000 <=? c) && (c <=? 0x200A))
  || (c =? 0x2028) || (c =? 0x2029) || (c =? 0x202F) || (c =? 0x205F)
  || (c =? 0x3000).

(** [s.lstrip()], [s.rstrip()] and [s.strip()]. *)
Fixpoint lstrip (s : pystr) : pystr :=
  match s with
  | [] => []
  | c :: r => if isspace c then lstrip r else s
  end.

Definition rstrip (s : pystr) : pystr := rev (lstrip (rev s)).

Definition strip (s : pystr) : pystr := rstrip (lstrip s).

(** Truth value of a string in a condition: [if s:] holds for a non-empty
    string. *)
Definition truthy (s : pystr) : bool :=
  match s with [] => false | _ :: _ => true end.

(** [sep.join(parts)] on a list of strings. *)
Fixpoint join (sep : pystr) (parts : list pystr) : pystr :=
  match parts with
  | [] => []
  | [x] => x
  | x :: rest => x ++ sep ++ join sep rest
  end.

(** [s.startswith(prefix)] and [s.startswith((p1, p2, ...))]. *)
Fixpoint startswith (s prefix : pystr) : bool :=
  match prefix, s with
  | [], _ => true
  | p :: prefix', c :: s' => (c =? p) && startswith s' prefix'
  | _ :: _, [] => false
  end.

Definition startswith_any (s : pystr) (prefixes : list pystr) : bool :=
  existsb (startswith s) prefixes.

(** A string all of whose characters are white space (the empty string
    included): exactly the strings that [strip] empties. *)
Definition blank (s : pystr) : bool := forallb isspace s.

(** A string that starts and ends with a character that is not white
    space. *)
Definition tight (s : pystr) : Prop :=
  (exists c r, s = c :: r /\ isspace c = false)
  /\ (exists q d, s = q ++ [d] /\ isspace d = false).

End Str.

(** ** Python values and exceptions *)

(** The values [json.load] and [response.json()] return. A [dict] keeps
    its items in insertion order; its keys are distinct, and a lookup in a
    list with a repeated key takes the first binding, so every list stands
    for one dictionary. *)
Inductive pyval : Type :=
| PyNone
| PyBool (b : bool)
| PyInt (z : Z)
| PyFloat (f : float)
| PyStr (s : pystr)
| PyList (items : list pyval)
| PyDict (items : list (pystr * pyval)).

(** The exception classes the code raises or meets, each standing for its
    subclasses too: [OSError] for [FileNotFoundError], [PermissionError]
    and the exceptions of [requests]; [ValueError] for [JSONDecodeError],
    [UnicodeDecodeError] and [UnicodeEncodeError]. *)
Inductive exn : Type :=
| RuntimeError
| OSError
| ValueError
| TypeError
| AttributeError.

(** The outcome of an expression: a value, or a raised exception. *)
Inductive result (A : Type) : Type :=
| Ok (a : A)
| Raise (e : exn).

Arguments Ok {A} a.
Arguments Raise {A} e.

Definition bind {A B : Type} (c : result A) (k : A -> result B) : result B :=
  match c with
  | Ok a => k a
  | Raise e => Raise e
  end.

Notation "'let*' x ':=' c 'in' k" := (bind c (fun x => k))
  (at level 10, x name, c at level 100, k at level 200).

(** Evaluates [f] on each item, left to right, up to the first exception. *)
Fixpoint mapM {A B : Type} (f : A -> result B) (l : list A) : result (list B) :=
  match l with
  | [] => Ok []
  | x :: rest => let* y := f x in let* ys := mapM f rest in Ok (y :: ys)
  end.

Module Py.

Fixpoint dict_lookup (items : list (pystr * pyval)) (key : pystr) : option pyval :=
  match items with
  | [] => None
  | (k, v) :: rest => if decide (k = key) then Some v else dict_lookup rest key
  end.

(** [obj.get(key, default)]: only a [dict] has the method. *)
Definition get (obj : pyval) (key : pystr) (default : pyval) : result pyval :=
  match obj with
  | PyDict items => Ok (from_option id default (dict_lookup items key))
  | _ => Raise AttributeError
  end.

(** The items a [for] loop or a generator expression draws from [v]: the
    elements of a list, the characters of a string, the keys of a dict;
    the other values are not iterable. *)
Definition iter (v : pyval) : result (list pyval) :=
  match v with
  | PyList items => Ok items
  | PyStr s => Ok (map (fun c => PyStr [c]) s)
  | PyDict items => Ok (map (fun kv => PyStr (fst kv)) items)
  | _ => Raise TypeError
  end.

(** [sep.join(items)] wants every item to be a [str]. *)
Definition as_str (v : pyval) : result pystr :=
  match v with
  | PyStr s => Ok s
  | _ => Raise TypeError
  end.

Definition join (sep : pystr) (items : list pyval) : result pystr :=
  let* parts := mapM as_str items in Ok (Str.join sep parts).

(** [v == 1]: equal numbers are equal across [bool], [int] and [float]. *)
Definition eq_one (v : pyval) : bool :=
  match v with
  | PyBool b => b
  | PyInt z => (z =? 1)%Z
  | PyFloat f => PrimFloat.eqb f 1%float
  | _ => false
  end.

End Py.

(** ** The reconstruction pass of [parse_cc] *)

(** The two variables of the loop. *)
Record state : Type := State {
  paragraphs : list pystr;
  current_paragraph : pystr
}.

Definition init_state : state :=
  {| paragraphs := []; current_paragraph := [] |}.

(** [paragraphs.append(current_paragraph.strip())] under the guard
    [if current_paragraph.strip():]. *)
Definition flushed (st : state) : list pystr :=
  if Str.truthy (Str.strip (current_paragraph st))
  then paragraphs st ++ [Str.strip (current_paragraph st)]
  else paragraphs st.

(** [segs = event.get("segs", [])] and
    [text = "".join(seg.get("utf8", "") for seg in segs)]. *)
Definition event_text (event : pyval) : result pystr :=
  let* segs := Py.get event (py "segs") (PyList []) in
  let* segs_items := Py.iter segs in
  let* texts := mapM (fun seg => Py.get seg (py "utf8") (PyStr [])) segs_items in
  Py.join [] texts.

(** [event.get("aAppend") == 1]. *)
Definition is_append (event : pyval) : result bool :=
  let* flag := Py.get event (py "aAppend") PyNone in Ok (Py.eq_one flag).

(** One turn of the loop body. *)
Definition step (st : state) (event : pyval) : result state :=
  let* text := event_text event in
  if negb (Str.truthy (Str.strip text)) then
    (* a break: flush and clear, only when the buffer holds text *)
    if Str.truthy (Str.strip (current_paragraph st))
    then Ok {| paragraphs := paragraphs st ++ [Str.strip (current_paragraph st)];
               current_paragraph := [] |}
    else Ok st
  else
    let* append := is_append event in
    if append then
      Ok {| paragraphs := paragraphs st;
            current_paragraph := current_paragraph st ++ py " " ++ Str.strip text |}
    else
      Ok {| paragraphs := flushed st;
            current_paragraph := Str.strip text |}.

(** [for event in ...:] over the events in order. *)
Fixpoint loop (st : state) (events : list pyval) : result state :=
  match events with
  | [] => Ok st
  | event :: rest => let* st' := step st event in loop st' rest
  end.

(** The events the loop runs over: [data.get("events", [])]. *)
Definition events_of (data : pyval) : result (list pyval) :=
  let* events := Py.get data (py "events") (PyList []) in Py.iter events.

(** Lines 183 to 210 of [parse_cc]: from the loaded data to the list
    [paragraphs] as it stands before the files are written. *)
Definition reconstruct (data : pyval) : result (list pystr) :=
  let* events := events_of data in
  let* st := loop init_state events in
  Ok (flushed st).

(** The states the loop can be in: those some sequence of events leads to
    from the initial one. *)
Definition reachable (st : state) : Prop :=
  exists events, loop init_state events = Ok st.

(** Events and segments of the shape the caption track has: an event is a
    dict whose ["segs"], when present, is a list of dicts whose ["utf8"],
    when present, is a string. *)
Definition wf_seg (seg : pyval) : bool :=
  match seg with
  | PyDict items =>
      match Py.dict_lookup items (py "utf8") with
      | None | Some (PyStr _) => true
      | Some _ => false
      end
  | _ => false
  end.

Definition wf_event (event : pyval) : bool :=
  match event with
  | PyDict items =>
      match Py.dict_lookup items (py "segs") with
      | None => true
      | Some (PyList segs) => forallb wf_seg segs
      | Some _ => false
      end
  | _ => false
  end.

(** The stripped text of each event that has text, in the order of the
    events: what the pass has to place in paragraphs. *)
Definition spoken_text (event : pyval) : list pystr :=
  match event_text event with
  | Ok text => if Str.truthy (Str.strip text) then [Str.strip text] else []
  | Raise _ => []
  end.

Definition spoken (events : list pyval) : list pystr :=
  flat_map spoken_text events.

(** An event that is a break marker: its text is empty once stripped. *)
Definition is_break (event : pyval) : bool :=
  match event_text event with
  | Ok text => negb (Str.truthy (Str.strip text))
  | Raise _ => false
  end.

(** ** The world outside [parse_cc]: the network and the file system *)

(** [os.name], which fixes [os.linesep]. *)
Inductive os_name : Type := Posix | Nt.

Definition linesep (os : os_name) : pystr :=
  match os with
  | Posix => [0x0A]
  | Nt => [0x0D; 0x0A]
  end.

(** What [load_data] reads of a [requests] response: [status_code], and
    the outcome of [json()]. *)
Record response : Type := Response {
  status_code : Z;
  json : result pyval
}.

(** What the calls that leave the program answer, call by call. *)
Record world : Type := World {
  os : os_name;
  (* requests.get(source) *)
  requests_get : pystr -> result response;
  (* os.path.exists(source) *)
  path_exists : pystr -> bool;
  (* with open(source, 'r', encoding=STRING_ENCODING) as f: json.load(f) *)
  read_json : pystr -> result pyval;
  (* the exception open(path, 'w', ...) raises, when it raises one *)
  open_for_writing : pystr -> option exn
}.

(** The text files on disk, by path, each with the characters stored. *)
Abbreviation disk := (gmap pystr pystr).

(** A computation that may write files and may raise. *)
Definition io (A : Type) : Type := disk -> result A * disk.

Definition io_ret {A : Type} (a : A) : io A := fun d => (Ok a, d).

Definition io_lift {A : Type} (r : result A) : io A := fun d => (r, d).

Definition io_bind {A B : Type} (c : io A) (k : A -> io B) : io B :=
  fun d =>
    match c d with
    | (Ok a, d') => k a d'
    | (Raise e, d') => (Raise e, d')
    end.

Notation "'let!' x ':=' c 'in' k" := (io_bind c (fun x => k))
  (at level 10, x name, c at level 100, k at level 200).

Definition URL_PREFIXES : list pystr := [py "http://"; py "https://"].

(** [load_data(source)]. *)
Definition load_data (w : world) (source : pystr) : result pyval :=
  if Str.startswith_any source URL_PREFIXES then
    let* r := requests_get w source in
    if (status_code r =? 200)%Z then json r else Raise RuntimeError
  else if path_exists w source then read_json w source
  else Raise RuntimeError.

(** *** The text layer of [open]

    [STRING_ENCODING] is ["utf-8"]: every character is encoded but the
    surrogates, on which the encoder raises [UnicodeEncodeError]. No
    [newline] argument is given, so on writing each line feed is stored as
    [os.linesep], and on reading each ["\r\n"] and each other ["\r"] comes
    back as a line feed. *)
Definition is_surrogate (c : N) : bool := (0xD800 <=? c) && (c <=? 0xDFFF).

Definition write_char (os : os_name) (c : N) : result pystr :=
  if is_surrogate c then Raise ValueError
  else Ok (if c =? 0x0A then linesep os else [c]).

(** [f.writelines(text)] with [text] a string: its "lines" are its
    characters, written one after the other. The result is what the file
    holds once the [with] block has closed it, and how the call ended. *)
Fixpoint writelines (os : os_name) (text written : pystr) : pystr * result unit :=
  match text with
  | [] => (written, Ok tt)
  | c :: rest =>
      match write_char os c with
      | Ok stored => writelines os rest (written ++ stored)
      | Raise e => (written, Raise e)
      end
  end.

(** [with open(path, 'w', encoding=STRING_ENCODING) as f: f.writelines(text)]. *)
Definition write_file (w : world) (path text : pystr) : io unit :=
  fun d =>
    match open_for_writing w path with
    | Some e => (Raise e, d)
    | None =>
        let '(written, r) := writelines (os w) text [] in
        (r, <[path := written]> d)
    end.

(** What a file opened for reading hands out for the stored characters. *)
Fixpoint universal_newlines (stored : pystr) : pystr :=
  match stored with
  | [] => []
  | c :: rest =>
      if c =? 0x0D then
        match rest with
        | c' :: rest' =>
            if c' =? 0x0A then 0x0A :: universal_newlines rest'
            else 0x0A :: universal_newlines rest
        | [] => [0x0A]
        end
      else c :: universal_newlines rest
  end.

(** [with open(cc_path, 'r', encoding='utf-8') as f: cc_text = f.read()],
    the way [_summarize_video] of gui_summary.py reads the file back. *)
Definition read_text (d : disk) (path : pystr) : result pystr :=
  match d !! path with
  | Some stored => Ok (universal_newlines stored)
  | None => Raise OSError
  end.

(** The newline translation of a whole text on its way to the disk. *)
Definition stored_form (os : os_name) (text : pystr) : pystr :=
  flat_map (fun c => if c =? 0x0A then linesep os else [c]) text.

(** *** [str(out_file)]

    [out_file] is [None], a [str] or a [bytes]; [str] of a [bytes] is its
    [repr]. *)
Inductive path_arg : Type :=
| PathStr (s : pystr)
| PathBytes (b : list Byte.byte).

Definition hexdigit (n : N) : N :=
  if n <? 10 then 0x30 + n else 0x61 + (n - 10).

Definition repr_byte (quote c : N) : pystr :=
  if (c =? quote) || (c =? 0x5C) then [0x5C; c]
  else if c =? 0x09 then py "\t"
  else if c =? 0x0A then py "\n"
  else if c =? 0x0D then py "\r"
  else if (c <? 0x20) || (0x7F <=? c)
       then py "\x" ++ [hexdigit (c / 16); hexdigit (c mod 16)]
  else [c].

Definition bytes_repr (b : list Byte.byte) : pystr :=
  let cs := map Byte.to_N b in
  let quote :=
    if existsb (N.eqb 0x27) cs && negb (existsb (N.eqb 0x22) cs)
    then 0x22 else 0x27 in
  py "b" ++ [quote] ++ flat_map (repr_byte quote) cs ++ [quote].

Definition py_str (out_file : option path_arg) : pystr :=
  match out_file with
  | None => py "None"
  | Some (PathStr s) => s
  | Some (PathBytes b) => bytes_repr b
  end.

(** ** [parse_cc]

    [parse_cc(source, out_file=None, **kwargs)]. Of [kwargs] the function
    reads ["output_file"] only: [output_file] is [kwargs.get("output_file")],
    a path or [None]. A call returns [None] or the list of paragraphs. *)

(** Lines 212 to 219 of [parse_cc]: the file named [str(out_file)] is
    written, then the one named by [output_file] when that is a non-empty
    path, and the paragraphs are returned. *)
Definition persist (w : world) (out_file : option path_arg)
    (output_file : option pystr) (paragraphs : list pystr)
  : io (option (list pystr)) :=
  let! _ := write_file w (py_str out_file) (Str.join (py " ") paragraphs) in
  let! _ :=
    match output_file with
    | Some path =>
        if Str.truthy path
        then write_file w path (Str.join (py " ") paragraphs)
        else io_ret tt
    | None => io_ret tt
    end in
  io_ret (Some paragraphs).

Definition parse_cc (w : world) (source : pystr) (out_file : option path_arg)
    (output_file : option pystr) : io (option (list pystr)) :=
  fun d =>
    match load_data w source with
    | Raise RuntimeError => (Ok None, d)
    | Raise e => (Raise e, d)
    | Ok data =>
        (let! paragraphs := io_lift (reconstruct data) in
         persist w out_file output_file paragraphs) d
    end.

(** The destinations a call opens for writing, in order. *)
Definition destinations (out_file : option path_arg) (output_file : option pystr)
  : list pystr :=
  py_str out_file ::
  match output_file with
  | Some path => if Str.truthy path then [path] else []
  | None => []
  end.

(** The exception on which writing [text] to [path] ends, when it fails:
    the one [open] raises, or the encoder's on the first surrogate. *)
Definition write_error (w : world) (text path : pystr) : option exn :=
  match open_for_writing w path with
  | Some e => Some e
  | None => if existsb is_surrogate text then Some ValueError else None
  end.

(** The error of the first destination, in order, whose write fails. *)
Fixpoint first_write_error (w : world) (text : pystr) (paths : list pystr)
  : option exn :=
  match paths with
  | [] => None
  | path :: rest =>
      match write_error w text path with
      | Some e => Some e
      | None => first_write_error w text rest
      end
  end.

(** Loaded data of the shape the caption track has: a dict whose
    ["events"], when present, is a list of well-formed events. *)
Definition wf_data (data : pyval) : bool :=
  match data with
  | PyDict items =>
      match Py.dict_lookup items (py "events") with
      | None => true
      | Some (PyList events) => forallb wf_event events
      | Some _ => false
      end
  | _ => false
  end.

(** ** Caption tracks written out

    [{"utf8": text}], [{"segs": segs}], [{"segs": segs, "aAppend": 1}] and
    [{"events": events}]. *)
Definition seg (text : string) : pyval :=
  PyDict [(py "utf8", PyStr (py text))].

Definition event (segs : list pyval) : pyval :=
  PyDict [(py "segs", PyList segs)].

Definition append_event (segs : list pyval) : pyval :=
  PyDict [(py "segs", PyList segs); (py "aAppend", PyInt 1)].

Definition track (events : list pyval) : pyval :=
  PyDict [(py "events", PyList events)].

(** ** What the pass keeps true

    [buffer_holds g buffer]: the buffer is the run of texts [g] joined by
    single spaces, after one more space when the run began with an append
    event; it is empty when no run is open. *)
Definition buffer_holds (g : list pystr) (buffer : pystr) : Prop :=
  match g with
  | [] => buffer = []
  | _ :: _ => buffer = Str.join (py " ") g \/ buffer = py " " ++ Str.join (py " ") g
  end.

(** [pass_inv texts st]: the paragraphs emitted so far and the open run
    [g] split [texts], the stripped texts met so far, into consecutive
    non-empty runs, in order. *)
Definition pass_inv (texts : list pystr) (st : state) : Prop :=
  exists (groups : list (list pystr)) (g : list pystr),
    paragraphs st = map (Str.join (py " ")) groups
    /\ Forall (fun run => run <> []) groups
    /\ concat groups ++ g = texts
    /\ Forall Str.tight texts
    /\ buffer_holds g (current_paragraph st).

(** ** Worlds and calls written out *)

(** A world on POSIX where every URL answers 200 with [data], no local
    file exists and every file can be written. *)
Definition serving (data : pyval) : world :=
  {| os := Posix;
     requests_get := fun _ => Ok {| status_code := 200; json := Ok data |};
     path_exists := fun _ => false;
     read_json := fun _ => Raise OSError;
     open_for_writing := fun _ => None |}.

(** The same world, where no file can be opened for writing. *)
Definition read_only (data : pyval) : world :=
  {| os := Posix;
     requests_get := fun _ => Ok {| status_code := 200; json := Ok data |};
     path_exists := fun _ => false;
     read_json := fun _ => Raise OSError;
     open_for_writing := fun _ => Some OSError |}.

(** A world where every URL answers 404 and no local file exists. *)
Definition unavailable : world :=
  {| os := Posix;
     requests_get := fun _ => Ok {| status_code := 404; json := Raise ValueError |};
     path_exists := fun _ => false;
     read_json := fun _ => Raise OSError;
     open_for_writing := fun _ => None |}.

Definition cc_url : pystr := py "https://captions.example/track.json3".

Definition out_txt : option path_arg := Some (PathStr (py "out.txt")).

(** A track whose one event has the text [a], carriage return, [b]. *)
Definition carriage_return_track : pyval :=
  track [event [PyDict [(py "utf8", PyStr [0x61; 0x0D; 0x62])]]].

(** ** More worlds written out *)

(** A world on POSIX where the network is down: [requests.get] raises a
    connection error, an [OSError]; no local file exists. *)
Definition offline : world :=
  {| os := Posix;
     requests_get := fun _ => Raise OSError;
     path_exists := fun _ => false;
     read_json := fun _ => Raise OSError;
     open_for_writing := fun _ => None |}.

(** A world that serves [data] and where only the path [refused] cannot be
    opened for writing. *)
Definition refusing (data : pyval) (refused : pystr) : world :=
  {| os := Posix;
     requests_get := fun _ => Ok {| status_code := 200; json := Ok data |};
     path_exists := fun _ => false;
     read_json := fun _ => Raise OSError;
     open_for_writing := fun path => if decide (path = refused) then Some OSError else None |}.

(** The outcomes of two runs of the loop agree: the same exception, or
    states that hand out the same paragraphs. *)
Definition same_paragraphs (r1 r2 : result state) : Prop :=
  match r1, r2 with
  | Ok st1, Ok st2 => flushed st1 = flushed st2
  | Raise e1, Raise e2 => e1 = e2
  | _, _ => False
  end.

(** ** More of Python: look-up errors, searching and cutting strings *)

(** The exceptions of the code below: those of [exn], and the two look-up
    errors, which no [except] clause of the source names. *)
Inductive raised : Type :=
| Std (e : exn)
| KeyError
| IndexError.

Inductive outcome (A : Type) : Type :=
| Returns (a : A)
| Raises (r : raised).

Arguments Returns {A} a.
Arguments Raises {A} r.

Definition outcome_bind {A B : Type} (c : outcome A) (k : A -> outcome B)
  : outcome B :=
  match c with
  | Returns a => k a
  | Raises r => Raises r
  end.

Notation "'let+' x ':=' c 'in' k" := (outcome_bind c (fun x => k))
  (at level 10, x name, c at level 100, k at level 200).

Definition of_result {A : Type} (r : result A) : outcome A :=
  match r with
  | Ok a => Returns a
  | Raise e => Raises (Std e)
  end.

Module StrOps.

(** [sub in s]. *)
Fixpoint contains (s sub : pystr) : bool :=
  Str.startswith s sub
  || match s with
     | [] => false
     | _ :: rest => contains rest sub
     end.

(** [s.find(sub)], with [None] for -1. *)
Fixpoint find (s sub : pystr) : option nat :=
  if Str.startswith s sub then Some 0%nat
  else match s with
       | [] => None
       | _ :: rest => S <$> find rest sub
       end.

(** [s.split(sep)]: the pieces between the occurrences of [sep], found
    from left to right, each one searched after the end of the one before.
    [fuel] bounds the number of cuts; the length of [s] is enough. An empty
    separator raises [ValueError]. *)
Fixpoint split_from (fuel : nat) (s sep : pystr) : list pystr :=
  match fuel with
  | O => [s]
  | S fuel' =>
      match find s sep with
      | None => [s]
      | Some i => take i s :: split_from fuel' (drop (i + length sep) s) sep
      end
  end.

Definition split (s sep : pystr) : result (list pystr) :=
  match sep with
  | [] => Raise ValueError
  | _ :: _ => Ok (split_from (length s) s sep)
  end.

(** [parts[i]] on a list. *)
Definition item {A : Type} (parts : list A) (i : nat) : outcome A :=
  match parts !! i with
  | Some x => Returns x
  | None => Raises IndexError
  end.

(** [s.replace(old, new)] for one-character [old] and [new]. *)
Definition replace_char (old new : N) (s : pystr) : pystr :=
  map (fun c => if c =? old then new else c) s.

(** [s.translate({ord(c): None for c in chars})]: the characters of
    [chars] are deleted. *)
Definition delete_chars (chars s : pystr) : pystr :=
  filter (fun c => c ∉ chars) s.

End StrOps.

(** ** src/common/util.py *)

Definition ID_LENGTH : nat := 11.

(** [illegal_chars]: colon, star, bar, the two angle brackets, slash,
    backslash, double quote and single quote. *)
Definition illegal_chars : pystr := py ":*|<>/" ++ [0x5C; 0x22; 0x27].

Definition youtube_segments : list pystr :=
  [py "youtu.be/"; py "youtube.com/shorts/"; py "youtube.com/watch?v="].

(** [is_youtube_url(string)]. *)
Definition is_youtube_url (s : pystr) : bool :=
  existsb (StrOps.contains s) youtube_segments.

(** The first test of [extract_id]: eleven characters, none of them a
    question mark, an equals sign or a slash. *)
Definition is_display_id (url : pystr) : bool :=
  (length url =? 11)%nat
  && negb (StrOps.contains url (py "?"))
  && negb (StrOps.contains url (py "="))
  && negb (StrOps.contains url (py "/")).

(** The loop of [extract_id] over the segments:
    [url.split(segment)[1][:ID_LENGTH]] for the first segment in [url]. *)
Fixpoint extract_id_from (url : pystr) (segments : list pystr) : outcome pystr :=
  match segments with
  | [] => Raises (Std RuntimeError)
  | segment :: rest =>
      if StrOps.contains url segment then
        let+ parts := of_result (StrOps.split url segment) in
        let+ part := StrOps.item parts 1 in
        Returns (take ID_LENGTH part)
      else extract_id_from url rest
  end.

(** [extract_id(url)]. *)
Definition extract_id (url : pystr) : outcome pystr :=
  if is_display_id url then Returns url
  else extract_id_from url youtube_segments.

(** [remove_illegal_chars(s, to_remove=None)]. *)
Definition remove_illegal_chars (s : pystr) (to_remove : option pystr) : pystr :=
  let chars :=
    match to_remove with
    | None => illegal_chars
    | Some more => more ++ illegal_chars
    end in
  if (0 <? length chars)%nat then StrOps.delete_chars chars s else s.

(** The character class of [emoji_pattern], range by range. *)
Definition emoji_ranges : list (N * N) :=
  [(0x1F600, 0x1F64F); (0x1F300, 0x1F5FF); (0x1F680, 0x1F6FF);
   (0x1F700, 0x1F77F); (0x1F780, 0x1F7FF); (0x1F800, 0x1F8FF);
   (0x1F900, 0x1F9FF); (0x1FA00, 0x1FA6F); (0x1FA70, 0x1FAFF);
   (0x2702, 0x27B0); (0x24C2, 0x1F251)].

Definition in_emoji_class (c : N) : bool :=
  existsb (fun range => (fst range <=? c) && (c <=? snd range)) emoji_ranges.

(** [remove_emoji(text)]: every run of characters of the class is
    replaced by nothing, and the result is stripped. *)
Definition remove_emoji (text : pystr) : pystr :=
  Str.strip (filter (fun c => in_emoji_class c = false) text).

(** [preprocess_string(s)]. *)
Definition preprocess_string (s : pystr) : pystr :=
  let s := remove_emoji s in
  let s := StrOps.replace_char 0x09 0x20
             (StrOps.replace_char 0x0D 0x20 (StrOps.replace_char 0x0A 0x20 s)) in
  remove_illegal_chars s None.

(** The URL [process_url] and [_summarize_video] build from a video id. *)
Definition watch_url (video_id : pystr) : pystr :=
  py "https://www.youtube.com/watch?v=" ++ video_id.

(** ** src/common/cc_parser.py: [CC_EXT] and [extract_cc_url] *)

Inductive CC_EXT : Type := JSON3 | SRV1 | SRV2 | SRV3 | TTML | VTT.

(** The [value] of a member. *)
Definition CC_EXT_value (e : CC_EXT) : nat :=
  match e with
  | JSON3 => 0 | SRV1 => 1 | SRV2 => 2 | SRV3 => 3 | TTML => 4 | VTT => 5
  end.

(** [CC_EXT.__str__]: the tuple of names, subscripted with the value. *)
Definition CC_EXT_str (e : CC_EXT) : outcome pystr :=
  StrOps.item [py "json3"; py "srv1"; py "srv2"; py "srv3"; py "ttml"; py "vtt"]
    (CC_EXT_value e).

(** [getattr(CC_EXT, name)]: the member of that name. *)
Definition CC_EXT_getattr (name : pystr) : result CC_EXT :=
  if decide (name = py "JSON3") then Ok JSON3
  else if decide (name = py "SRV1") then Ok SRV1
  else if decide (name = py "SRV2") then Ok SRV2
  else if decide (name = py "SRV3") then Ok SRV3
  else if decide (name = py "TTML") then Ok TTML
  else if decide (name = py "VTT") then Ok VTT
  else Raise AttributeError.

(** [s.upper()] on a string of ASCII characters; [None] on the strings
    with another character, whose upper case is not given here. *)
Definition ascii_upper (s : pystr) : option pystr :=
  if forallb (fun c => c <? 0x80) s
  then Some (map (fun c => if (0x61 <=? c) && (c <=? 0x7A) then c - 0x20 else c) s)
  else None.

(** The [cc_ext] argument of [extract_cc_url]: [None], one of the
    literal strings of its annotation, or the member of [CC_EXT] that
    [process_url] passes. *)
Inductive cc_ext_arg : Type :=
| ExtName (name : pystr)
| ExtMember (e : CC_EXT).

(** [str(cc_ext)]. *)
Definition cc_ext_str (cc_ext : option cc_ext_arg) : outcome pystr :=
  match cc_ext with
  | None => Returns (py "None")
  | Some (ExtName name) => Returns name
  | Some (ExtMember e) => CC_EXT_str e
  end.

(** [obj[key]] with a string key: [KeyError] on a dict without the key,
    [TypeError] on every other value. *)
Definition getitem (obj : pyval) (key : pystr) : outcome pyval :=
  match obj with
  | PyDict items =>
      match Py.dict_lookup items key with
      | Some v => Returns v
      | None => Raises KeyError
      end
  | _ => Raises (Std TypeError)
  end.

(** [try: ... except KeyError: raise RuntimeError(...)]. *)
Definition key_error_as_runtime_error {A : Type} (c : outcome A) : outcome A :=
  match c with
  | Raises KeyError => Raises (Std RuntimeError)
  | _ => c
  end.

(** [v == ext] for a string [ext]. *)
Definition eq_str (v : pyval) (ext : pystr) : bool :=
  match v with
  | PyStr s => bool_decide (s = ext)
  | _ => false
  end.

(** The test of the loop of [extract_cc_url]:
    [cc_ext is None or _next.get("ext") == ext]. *)
Definition ext_matches (cc_ext : option cc_ext_arg) (ext : pystr) (entry : pyval)
  : outcome bool :=
  match cc_ext with
  | None => Returns true
  | Some _ =>
      let+ v := of_result (Py.get entry (py "ext") PyNone) in
      Returns (eq_str v ext)
  end.

(** The loop: [Some] of what the [return] gives, or [None] when the loop
    ends without one. *)
Fixpoint first_url (cc_ext : option cc_ext_arg) (ext : pystr) (entries : list pyval)
  : option (outcome pyval) :=
  match entries with
  | [] => None
  | entry :: rest =>
      match ext_matches cc_ext ext entry with
      | Returns true => Some (getitem entry (py "url"))
      | Returns false => first_url cc_ext ext rest
      | Raises r => Some (Raises r)
      end
  end.

(** The last statements: the message needs [" ".join] of the [ext] of
    every entry, then [RuntimeError] is raised. *)
Definition no_ext_found (entries : list pyval) : outcome pyval :=
  let+ exts := of_result (mapM (fun k => Py.get k (py "ext") PyNone) entries) in
  let+ _ := of_result (Py.join (py " ") exts) in
  Raises (Std RuntimeError).

(** [extract_cc_url(json_file, language, cc_ext)]. *)
Definition extract_cc_url (w : world) (json_file language : pystr)
    (cc_ext : option cc_ext_arg) : outcome pyval :=
  let+ json_data := of_result (load_data w json_file) in
  let+ captions :=
    key_error_as_runtime_error (getitem json_data (py "automatic_captions")) in
  let+ cc_urls := key_error_as_runtime_error (getitem captions language) in
  let+ ext := cc_ext_str cc_ext in
  let+ entries := of_result (Py.iter cc_urls) in
  match first_url cc_ext ext entries with
  | Some r => r
  | None => no_ext_found entries
  end.

(** The ["ext"] of an entry is a string. *)
Definition has_str_ext (entry : pyval) : bool :=
  match Py.get entry (py "ext") PyNone with
  | Ok (PyStr _) => true
  | _ => false
  end.

(** An info file written out: [{"automatic_captions": {language: entries}}],
    and an entry [{"ext": ext, "url": url}]. *)
Definition info_json (language : string) (entries : list pyval) : pyval :=
  PyDict [(py "automatic_captions", PyDict [(py language, PyList entries)])].

Definition caption (ext url : string) : pyval :=
  PyDict [(py "ext", PyStr (py ext)); (py "url", PyStr (py url))].

(** ** src/common/youtube_info.py: the queries of [YouTube] *)

(** [Thumbnail] and [Format], each field with the type of its annotation;
    [None] is the default of the optional fields. *)
Record Thumbnail : Type := {
  thumbnail_id : pystr;
  thumbnail_url : pystr;
  preference : Z;
  thumbnail_width : option Z;
  thumbnail_height : option Z;
  thumbnail_resolution : option pystr
}.

Record Format : Type := {
  format_id : option pystr;
  format_url : option pystr;
  format_ext : option pystr;
  format_resolution : option pystr;
  vcodec : option pystr;
  acodec : option pystr;
  fps : option float;
  filesize : option Z;
  filesize_approx : option Z;
  tbr : option float;
  format_width : option Z;
  format_height : option Z;
  format_note : option pystr
}.

(** [max(items, key=...)] on a non-empty sequence with integer keys: the
    first item whose key no other exceeds. *)
Definition max_by {A : Type} (key : A -> Z) (first : A) (rest : list A) : A :=
  fold_left (fun best x => if (key best <? key x)%Z then x else best) rest first.

(** [YouTube.best_thumbnail]; [thumbnails] is [None] on an object whose
    metadata could not be read, a tuple otherwise. *)
Definition best_thumbnail (thumbnails : option (list Thumbnail)) : option Thumbnail :=
  match thumbnails with
  | None | Some [] => None
  | Some (t :: rest) => Some (max_by preference t rest)
  end.

(** [f.vcodec == "none"]. *)
Definition is_none_codec (codec : option pystr) : bool :=
  bool_decide (codec = Some (py "none")).

(** [YouTube.get_audio_only_formats] and [YouTube.get_video_only_formats];
    [formats] is [None] on an object whose metadata could not be read, and
    [None] cannot be iterated. *)
Definition get_audio_only_formats (formats : option (list Format))
  : result (list Format) :=
  match formats with
  | None => Raise TypeError
  | Some fs =>
      Ok (filter (fun f => is_none_codec (vcodec f) && negb (is_none_codec (acodec f)) = true)
            fs)
  end.

Definition get_video_only_formats (formats : option (list Format))
  : result (list Format) :=
  match formats with
  | None => Raise TypeError
  | Some fs =>
      Ok (filter (fun f => is_none_codec (acodec f) && negb (is_none_codec (vcodec f)) = true)
            fs)
  end.

(** [max(items, key=...)] with keys that are floats: an item takes the
    place of the best one so far only when its key is greater. *)
Definition max_by_float {A : Type} (key : A -> float) (first : A) (rest : list A) : A :=
  fold_left (fun best x => if PrimFloat.ltb (key best) (key x) then x else best)
    rest first.

(** [f.tbr or 0]. *)
Definition tbr_or_0 (f : Format) : float :=
  match tbr f with
  | None => 0%float
  | Some t => if PrimFloat.eqb t 0%float then 0%float else t
  end.

(** [f.acodec and codec in f.acodec]. *)
Definition has_codec (codec : pystr) (f : Format) : bool :=
  match acodec f with
  | None => false
  | Some a => Str.truthy a && StrOps.contains a codec
  end.

(** [YouTube.get_best_audio(codec)]. *)
Definition get_best_audio (formats : option (list Format)) (codec : pystr)
  : result (option Format) :=
  let* audio := get_audio_only_formats formats in
  match filter (fun f => has_codec codec f = true) audio with
  | [] => Ok None
  | f :: rest => Ok (Some (max_by_float tbr_or_0 f rest))
  end.

Definition thumbnail (name : string) (p : Z) : Thumbnail :=
  {| thumbnail_id := py name; thumbnail_url := py name; preference := p;
     thumbnail_width := None; thumbnail_height := None;
     thumbnail_resolution := None |}.

(** ** Dicts that change, and JSON files *)

Module Dict.

(** [d[key] = value]: the value of the key is replaced where the key
    stands, or the item is added at the end. *)
Fixpoint set (items : list (pystr * pyval)) (key : pystr) (value : pyval)
  : list (pystr * pyval) :=
  match items with
  | [] => [(key, value)]
  | (k, v) :: rest =>
      if decide (k = key) then (k, value) :: rest
      else (k, v) :: set rest key value
  end.

(** The items left by [d.pop(key)] or [del d[key]]. *)
Definition remove (items : list (pystr * pyval)) (key : pystr)
  : list (pystr * pyval) :=
  filter (fun kv => fst kv <> key) items.

End Dict.

(** [obj[key] = value] with a string key: only a dict takes it. *)
Definition setitem (obj : pyval) (key : pystr) (value : pyval) : outcome pyval :=
  match obj with
  | PyDict items => Returns (PyDict (Dict.set items key value))
  | _ => Raises (Std TypeError)
  end.

(** [obj.pop(key)] with a string key: the value and what is left of
    [obj]. A dict without the key raises [KeyError]; a list does not take
    a string as an index; the other values have no [pop]. *)
Definition pop (obj : pyval) (key : pystr) : outcome (pyval * pyval) :=
  match obj with
  | PyDict items =>
      match Py.dict_lookup items key with
      | Some v => Returns (v, PyDict (Dict.remove items key))
      | None => Raises KeyError
      end
  | PyList _ => Raises (Std TypeError)
  | _ => Raises (Std AttributeError)
  end.

(** [obj.pop(key, None)]: as [pop], with [None] for a missing key; a
    list takes one argument only. *)
Definition pop_default (obj : pyval) (key : pystr) : outcome (pyval * pyval) :=
  match obj with
  | PyDict items =>
      Returns (from_option id PyNone (Py.dict_lookup items key),
               PyDict (Dict.remove items key))
  | PyList _ => Raises (Std TypeError)
  | _ => Raises (Std AttributeError)
  end.

(** The JSON files on disk, by path: for each, what [json.load] gives on
    it, the value [json.dump] wrote or [ValueError] for a file that is
    not JSON. *)
Abbreviation json_files := (gmap pystr (result pyval)).

(** [json.load(open(path, ...))]. *)
Definition json_load (files : json_files) (path : pystr) : outcome pyval :=
  match files !! path with
  | Some r => of_result r
  | None => Raises (Std OSError)
  end.

(** [json.dump(value, open(path, 'w'), ...)] of a value read from JSON
    or built from strings. *)
Definition json_dump (w : world) (value : pyval) (path : pystr) (files : json_files)
  : outcome unit * json_files :=
  match open_for_writing w path with
  | Some e => (Raises (Std e), files)
  | None => (Returns tt, <[path := Ok value]> files)
  end.

(** ** src/manager/prompt_manager.py *)

Definition DEFAULT_PROMPT_NAME : pystr := py "Default Summary".

(** A [PromptManager]: [self.prompts] and [self.config_path]. *)
Record PromptManager : Type := {
  prompts : pyval;
  config_path : pystr
}.

(** [save_prompts()]. *)
Definition save_prompts (w : world) (pm : PromptManager) (files : json_files)
  : outcome unit * json_files :=
  json_dump w (prompts pm) (config_path pm) files.

(** [{"model": model, "text": text}]. *)
Definition prompt (model text : pystr) : pyval :=
  PyDict [(py "model", PyStr model); (py "text", PyStr text)].

(** [add_prompt(name, text, model)]: the outcome, the manager and the
    files after the call. *)
Definition add_prompt (w : world) (name text model : pystr) (pm : PromptManager)
    (files : json_files) : outcome unit * PromptManager * json_files :=
  match setitem (prompts pm) name (prompt model text) with
  | Raises r => (Raises r, pm, files)
  | Returns prompts' =>
      let pm' := {| prompts := prompts'; config_path := config_path pm |} in
      let '(r, files') := save_prompts w pm' files in
      (r, pm', files')
  end.

(** [delete_prompt(name)]. *)
Definition delete_prompt (w : world) (name : pystr) (pm : PromptManager)
    (files : json_files) : outcome unit * PromptManager * json_files :=
  if decide (name = DEFAULT_PROMPT_NAME) then (Returns tt, pm, files)
  else
    match pop (prompts pm) name with
    | Raises r => (Raises r, pm, files)
    | Returns (_, prompts') =>
        let pm' := {| prompts := prompts'; config_path := config_path pm |} in
        let '(r, files') := save_prompts w pm' files in
        (r, pm', files')
    end.

(** [get_prompt(name)]. *)
Definition get_prompt (pm : PromptManager) (name : pystr) : result pyval :=
  Py.get (prompts pm) name PyNone.

(** ** src/common/cc_parser.py: [extract_comments] and [extract_all] *)

(** [_load_json(path)]. *)
Definition _load_json (files : json_files) (path : pystr) : outcome pyval :=
  json_load files path.

(** The body of the loop of [extract_comments] on one comment: the keys
    of [remove_keys] are popped, then ["display_id"] is set. *)
Fixpoint pop_keys (comment : pyval) (keys : list pystr) : outcome pyval :=
  match keys with
  | [] => Returns comment
  | k :: rest =>
      let+ popped := pop_default comment k in
      pop_keys (snd popped) rest
  end.

Definition tag_comment (remove_keys : option (list pystr)) (display_id : pyval)
    (comment : pyval) : outcome pyval :=
  let+ comment :=
    match remove_keys with
    | Some keys => pop_keys comment keys
    | None => Returns comment
    end in
  setitem comment (py "display_id") display_id.

Fixpoint tag_comments (remove_keys : option (list pystr)) (display_id : pyval)
    (comments : list pyval) : outcome (list pyval) :=
  match comments with
  | [] => Returns []
  | c :: rest =>
      let+ c' := tag_comment remove_keys display_id c in
      let+ rest' := tag_comments remove_keys display_id rest in
      Returns (c' :: rest')
  end.

(** [path[:-5] + ".comments.json"]. *)
Definition comments_path (path : pystr) : pystr :=
  take (length path - 5) path ++ py ".comments.json".

(** [v is None]. *)
Definition is_None (v : pyval) : bool :=
  match v with
  | PyNone => true
  | _ => false
  end.

(** [extract_comments(path, content, remove_keys, **kwargs)], with the
    two keywords it reads: [out_file] ([None] when it is not given) and
    [save_content] (true when it is not given). [content] is [PyNone] when
    it is not given, and the result is [PyNone] when the function ends
    without a [return] value. *)
Definition extract_comments (w : world) (path : pystr) (content : pyval)
    (remove_keys : option (list pystr)) (out_file : option pystr)
    (save_content : bool) (files : json_files)
  : outcome pyval * json_files :=
  let out_file := default (comments_path path) out_file in
  let load_content := is_None content in
  match (if load_content then _load_json files path else Returns content) with
  | Raises r => (Raises r, files)
  | Returns content =>
      match (let+ display_id := getitem content (py "display_id") in
             let+ popped := pop_default content (py "comments") in
             Returns (display_id, popped)) with
      | Raises r => (Raises r, files)
      | Returns (display_id, (comments, content)) =>
          if is_None comments then (Returns content, files)
          else
            match (let+ items := of_result (Py.iter comments) in
                   tag_comments remove_keys display_id items) with
            | Raises r => (Raises r, files)
            | Returns output =>
                let done := Returns (if load_content then PyNone else content) in
                match output with
                | [] => (done, files)
                | _ :: _ =>
                    match json_dump w (PyList output) out_file files with
                    | (Raises r, files') => (Raises r, files')
                    | (Returns _, files') =>
                        if load_content && save_content then
                          match json_dump w content path files' with
                          | (Raises r, files'') => (Raises r, files'')
                          | (Returns _, files'') => (done, files'')
                          end
                        else (done, files')
                    end
                end
            end
      end
  end.

(** [extract_all(path)]. *)
Definition extract_all (w : world) (path : pystr) (files : json_files)
  : outcome unit * json_files :=
  match _load_json files path with
  | Raises r => (Raises r, files)
  | Returns content =>
      match extract_comments w path content
              (Some [py "_time_text"; py "author_thumbnail"; py "author_url"])
              None true files with
      | (Raises r, files') => (Raises r, files')
      | (Returns content', files') => json_dump w content' path files'
      end
  end.

(** An info file with comments, written out. *)
Definition info_with_comments (display_id : string) (comments : list pyval) : pyval :=
  PyDict [(py "display_id", PyStr (py display_id)); (py "title", PyStr (py "A title"));
          (py "comments", PyList comments)].

Definition comment (text author_url : string) : pyval :=
  PyDict [(py "text", PyStr (py text)); (py "author_url", PyStr (py author_url))].

(** The items of a comment once [extract_comments] has dealt with it. *)
Definition tagged_items (remove_keys : option (list pystr)) (display_id : pyval)
    (items : list (pystr * pyval)) : list (pystr * pyval) :=
  Dict.set (fold_left Dict.remove (default [] remove_keys) items)
    (py "display_id") display_id.

Definition is_dict (v : pyval) : bool :=
  match v with
  | PyDict _ => true
  | _ => false
  end.

(** The keys [extract_all] removes from every comment. *)
Definition removed_comment_keys : list pystr :=
  [py "_time_text"; py "author_thumbnail"; py "author_url"].

(** * Properties *)

(** ** The definitions on small inputs *)

Example strip_example :
  Str.strip (py "  Hello world ") = py "Hello world".
Proof. reflexivity. Qed.

Example strip_newline : Str.strip (py "   ") = [] /\ Str.strip [0x0A] = [].
Proof. split; reflexivity. Qed.

Example strip_unicode_space : Str.strip [0xA0; 0x41; 0x20; 0x42; 0x3000] = [0x41; 0x20; 0x42].
Proof. reflexivity. Qed.

Example join_example :
  Str.join (py " ") [py "a"; py "b"; py "c"] = py "a b c".
Proof. reflexivity. Qed.

Example eq_one_example :
  Py.eq_one (PyInt 1) = true /\ Py.eq_one (PyBool true) = true
  /\ Py.eq_one (PyFloat 1%float) = true /\ Py.eq_one (PyInt 2) = false
  /\ Py.eq_one PyNone = false /\ Py.eq_one (PyStr (py "1")) = false.
Proof. repeat split. Qed.

Example single_event :
  reconstruct (track [event [seg "Hello world"]]) = Ok [py "Hello world"].
Proof. reflexivity. Qed.

Example segments_join_without_separator :
  event_text (event [seg "Hel"; seg "lo "; seg "world"]) = Ok (py "Hello world").
Proof. reflexivity. Qed.

(** The text of a segment is its ["utf8"] item: under any other key, such
    as ["text"], the segment has no text. *)
Example segment_text_is_utf8 :
  event_text (event [PyDict [(py "text", PyStr (py "Hello"))]]) = Ok [].
Proof. reflexivity. Qed.

(** Values of another shape stop the pass. *)
Example segs_null_raises :
  event_text (PyDict [(py "segs", PyNone)]) = Raise TypeError
  /\ event_text (event [PyDict [(py "utf8", PyInt 5)]]) = Raise TypeError
  /\ event_text (PyList []) = Raise AttributeError
  /\ reconstruct (PyList []) = Raise AttributeError.
Proof. repeat split. Qed.

Example str_of_bytes :
  py_str (Some (PathBytes [Byte.x6f; Byte.x75; Byte.x74])) = py "b'out'"
  /\ bytes_repr [Byte.x61; Byte.x27; Byte.x00; Byte.xff; Byte.x0a]
     = py "b" ++ [0x22] ++ py "a'\x00\xff\n" ++ [0x22].
Proof. split; reflexivity. Qed.

Example load_data_example :
  load_data (serving (track [])) cc_url = Ok (track [])
  /\ load_data unavailable cc_url = Raise RuntimeError
  /\ load_data unavailable (py "track.json3") = Raise RuntimeError.
Proof. repeat split. Qed.

(** On Windows a line feed is stored as carriage return, line feed, and
    read back as a line feed. *)
Example line_feed_on_nt :
  stored_form Nt [0x61; 0x0A; 0x62] = [0x61; 0x0D; 0x0A; 0x62]
  /\ universal_newlines [0x61; 0x0D; 0x0A; 0x62] = [0x61; 0x0A; 0x62].
Proof. split; reflexivity. Qed.



(** ** Stripping and joining *)

Section StripFacts.

Import Str.

Lemma blank_app (a b : pystr) : blank (a ++ b) = blank a && blank b.
Proof. unfold blank. apply forallb_app. Qed.

Lemma blank_rev (s : pystr) : blank (rev s) = blank s.
Proof.
  induction s as [|c s IH]; [reflexivity|].
  simpl rev. rewrite blank_app, IH. simpl. rewrite andb_true_r. apply andb_comm.
Qed.

Lemma lstrip_blank_app (a m : pystr) :
  blank a = true -> lstrip (a ++ m) = lstrip m.
Proof.
  induction a as [|c a IH]; simpl; [reflexivity|].
  intros [Hc Ha]%andb_true_iff. rewrite Hc. auto.
Qed.

Lemma lstrip_blank (s : pystr) : blank s = true -> lstrip s = [].
Proof.
  intros H. rewrite <- (app_nil_r s). rewrite lstrip_blank_app by exact H.
  reflexivity.
Qed.

Lemma lstrip_head (c : N) (r : pystr) :
  isspace c = false -> lstrip (c :: r) = c :: r.
Proof. intros H. simpl. rewrite H. reflexivity. Qed.

Lemma rstrip_blank_app (m b : pystr) :
  blank b = true -> rstrip (m ++ b) = rstrip m.
Proof.
  intros H. unfold rstrip. rewrite rev_app_distr.
  rewrite lstrip_blank_app; [reflexivity|]. rewrite blank_rev. exact H.
Qed.

Lemma rstrip_last (q : pystr) (d : N) :
  isspace d = false -> rstrip (q ++ [d]) = q ++ [d].
Proof.
  intros H. unfold rstrip. rewrite rev_app_distr. simpl. rewrite H. simpl.
  rewrite rev_involutive. reflexivity.
Qed.

(** Stripping removes the white space around a tight core, and only that. *)
Lemma strip_sandwich (a m b : pystr) :
  blank a = true -> blank b = true -> tight m -> strip (a ++ m ++ b) = m.
Proof.
  intros Ha Hb [(c & r & -> & Hc) (q & d & Hm & Hd)].
  unfold strip. rewrite lstrip_blank_app by exact Ha.
  rewrite <- app_comm_cons, lstrip_head by exact Hc.
  rewrite app_comm_cons, rstrip_blank_app by exact Hb.
  rewrite Hm. apply rstrip_last, Hd.
Qed.

Lemma strip_tight (m : pystr) : tight m -> strip m = m.
Proof.
  intros H. rewrite <- (strip_sandwich [] m []) at 2 by (reflexivity || exact H).
  rewrite app_nil_r. reflexivity.
Qed.

Lemma strip_blank (s : pystr) : blank s = true -> strip s = [].
Proof. intros H. unfold strip. rewrite lstrip_blank by exact H. reflexivity. Qed.

Lemma strip_space_cons (c : N) (s : pystr) :
  isspace c = true -> strip (c :: s) = strip s.
Proof. intros H. unfold strip. simpl. rewrite H. reflexivity. Qed.

Lemma tight_truthy (s : pystr) : tight s -> truthy s = true.
Proof. intros [(c & r & -> & _) _]. reflexivity. Qed.

Lemma tight_single (c : N) : isspace c = false -> tight [c].
Proof.
  intros H. split; [exists c, []|exists [], c]; split; auto.
Qed.

Lemma tight_cons (c : N) (m : pystr) :
  isspace c = false -> tight m -> tight (c :: m).
Proof.
  intros Hc [_ (q & d & -> & Hd)]. split.
  - exists c, (q ++ [d]). auto.
  - exists (c :: q), d. auto.
Qed.

Lemma tight_app (a m b : pystr) : tight a -> tight b -> tight (a ++ m ++ b).
Proof.
  intros [(c & r & -> & Hc) _] [_ (q & d & -> & Hd)]. split.
  - exists c, (r ++ m ++ q ++ [d]). auto.
  - exists ((c :: r) ++ m ++ q), d. split; [|exact Hd].
    rewrite <- !app_assoc. reflexivity.
Qed.

Lemma tight_not_blank (m : pystr) : tight m -> blank m = false.
Proof.
  intros [(c & r & -> & Hc) _]. simpl. rewrite Hc. reflexivity.
Qed.

(** Every string is blank, or a tight core between two blank margins. *)
Lemma blank_or_core (s : pystr) :
  blank s = true
  \/ exists a m b, s = a ++ m ++ b /\ blank a = true /\ blank b = true /\ tight m.
Proof.
  induction s as [|c s [IH|(a & m & b & -> & Ha & Hb & Hm)]].
  - left. reflexivity.
  - destruct (isspace c) eqn:Hc.
    + left. simpl. rewrite Hc. exact IH.
    + right. exists [], [c], s. auto using tight_single.
  - right. destruct (isspace c) eqn:Hc.
    + exists (c :: a), m, b. repeat split; try apply Hm; auto.
      simpl. rewrite Hc. exact Ha.
    + exists [], (c :: a ++ m), b. repeat split; auto.
      * simpl. rewrite <- app_assoc. reflexivity.
      * exists c, (a ++ m). auto.
      * destruct Hm as [_ (q & d & -> & Hd)]. exists (c :: a ++ q), d.
        split; [|exact Hd]. simpl. rewrite <- app_assoc. reflexivity.
Qed.

Lemma strip_cases (s : pystr) :
  (blank s = true /\ strip s = []) \/ (blank s = false /\ tight (strip s)).
Proof.
  destruct (blank_or_core s) as [H|(a & m & b & -> & Ha & Hb & Hm)].
  - left. auto using strip_blank.
  - right. rewrite strip_sandwich by assumption. split; [|exact Hm].
    rewrite !blank_app, (tight_not_blank m Hm), andb_false_r. reflexivity.
Qed.

Lemma strip_truthy_tight (s : pystr) :
  truthy (strip s) = true -> tight (strip s).
Proof.
  destruct (strip_cases s) as [[_ ->]|[_ H]]; [discriminate|auto].
Qed.

Lemma strip_truthy_blank (s : pystr) :
  truthy (strip s) = negb (blank s).
Proof.
  destruct (strip_cases s) as [[-> ->]|[-> H]]; [reflexivity|].
  apply tight_truthy, H.
Qed.

Lemma strip_idempotent (s : pystr) : strip (strip s) = strip s.
Proof.
  destruct (strip_cases s) as [[_ ->]|[_ H]]; [reflexivity|].
  apply strip_tight, H.
Qed.

Lemma join_snoc (sep : pystr) (l : list pystr) (x : pystr) :
  l <> [] -> join sep (l ++ [x]) = join sep l ++ sep ++ x.
Proof.
  induction l as [|y l IH]; [congruence|]. intros _.
  destruct l as [|z l]; [reflexivity|].
  change (join sep ((y :: z :: l) ++ [x]))
    with (y ++ sep ++ join sep ((z :: l) ++ [x])).
  rewrite IH by congruence.
  change (join sep (y :: z :: l)) with (y ++ sep ++ join sep (z :: l)).
  rewrite <- !app_assoc. reflexivity.
Qed.

Lemma join_app (sep : pystr) (l1 l2 : list pystr) :
  l1 <> [] -> l2 <> [] ->
  join sep (l1 ++ l2) = join sep l1 ++ sep ++ join sep l2.
Proof.
  intros H1 H2. induction l1 as [|y l1 IH]; [congruence|].
  destruct l1 as [|z l1].
  - destruct l2; [congruence|reflexivity].
  - change (join sep ((y :: z :: l1) ++ l2))
      with (y ++ sep ++ join sep ((z :: l1) ++ l2)).
    rewrite IH by congruence.
    change (join sep (y :: z :: l1)) with (y ++ sep ++ join sep (z :: l1)).
    rewrite <- !app_assoc. reflexivity.
Qed.

Lemma tight_join (sep : pystr) (l : list pystr) :
  l <> [] -> Forall tight l -> tight (join sep l).
Proof.
  induction l as [|y l IH]; [congruence|]. intros _ Hall.
  apply Forall_cons_1 in Hall as [Hy Hl].
  destruct l as [|z l]; [exact Hy|].
  change (join sep (y :: z :: l)) with (y ++ sep ++ join sep (z :: l)).
  apply tight_app; [exact Hy|]. apply IH; [congruence|exact Hl].
Qed.

(** Joining the joined groups is joining all their members. *)
Lemma join_groups (sep : pystr) (groups : list (list pystr)) :
  Forall (fun g => g <> []) groups ->
  join sep (map (join sep) groups) = join sep (concat groups).
Proof.
  induction groups as [|g groups IH]; [reflexivity|].
  intros Hall. apply Forall_cons_1 in Hall as [Hg Hall].
  destruct groups as [|g' groups].
  - simpl. rewrite app_nil_r. reflexivity.
  - change (join sep (map (join sep) (g :: g' :: groups)))
      with (join sep g ++ sep ++ join sep (map (join sep) (g' :: groups))).
    rewrite IH by exact Hall.
    change (concat (g :: g' :: groups)) with (g ++ concat (g' :: groups)).
    rewrite join_app; [reflexivity|exact Hg|].
    apply Forall_cons_1 in Hall as [Hg' _].
    simpl. destruct g'; [congruence|discriminate].
Qed.

End StripFacts.

Create HintDb pystr.
#[export] Hint Resolve tight_single tight_cons tight_app tight_join tight_truthy
  tight_not_blank strip_tight strip_blank strip_truthy_tight : pystr.

(** ** The reconstruction pass *)

Section PassFacts.

Import Str.

Lemma bind_ok {A B : Type} (c : result A) (k : A -> result B) (b : B) :
  bind c k = Ok b -> exists a, c = Ok a /\ k a = Ok b.
Proof. destruct c as [a|e]; simpl; [eauto|discriminate]. Qed.

Lemma mapM_wf_segs (segs : list pyval) :
  forallb wf_seg segs = true ->
  exists strs,
    mapM (fun seg => Py.get seg (py "utf8") (PyStr [])) segs = Ok (map PyStr strs).
Proof.
  induction segs as [|s segs IH]; simpl.
  - exists []. reflexivity.
  - intros [Hs Hsegs]%andb_true_iff. destruct (IH Hsegs) as [strs ->].
    destruct s as [| | | | |?|items]; try discriminate. simpl in *.
    destruct (Py.dict_lookup items (py "utf8")) as [[| | | |str| |]|];
      try discriminate.
    + exists (str :: strs). reflexivity.
    + exists ([] :: strs). reflexivity.
Qed.

Lemma mapM_as_str (strs : list pystr) : mapM Py.as_str (map PyStr strs) = Ok strs.
Proof.
  induction strs as [|s strs IH]; simpl; [reflexivity|]. rewrite IH. reflexivity.
Qed.

(** An event of the expected shape has a text: the pass does not stop on it. *)
Lemma wf_event_text (e : pyval) :
  wf_event e = true -> exists text, event_text e = Ok text.
Proof.
  destruct e as [| | | | |?|items]; try discriminate. unfold event_text. simpl.
  destruct (Py.dict_lookup items (py "segs")) as [[| | | | |segs|]|];
    try discriminate; simpl.
  - intros [strs ->]%mapM_wf_segs. simpl. unfold Py.join.
    rewrite mapM_as_str. simpl. eauto.
  - eauto.
Qed.

Lemma event_text_dict (e : pyval) (text : pystr) :
  event_text e = Ok text -> exists items, e = PyDict items.
Proof. destruct e; try discriminate. eauto. Qed.

Lemma is_append_total (e : pyval) (text : pystr) :
  event_text e = Ok text -> exists b, is_append e = Ok b.
Proof. intros [items ->]%event_text_dict. unfold is_append. simpl. eauto. Qed.

Lemma step_break (st : state) (e : pyval) (text : pystr) :
  event_text e = Ok text -> truthy (strip text) = false ->
  step st e =
    Ok (if truthy (strip (current_paragraph st))
        then {| paragraphs := paragraphs st ++ [strip (current_paragraph st)];
                current_paragraph := [] |}
        else st).
Proof.
  intros Ht Hs. unfold step. rewrite Ht. simpl. rewrite Hs. simpl.
  destruct (truthy (strip (current_paragraph st))); reflexivity.
Qed.

Lemma step_append (st : state) (e : pyval) (text : pystr) :
  event_text e = Ok text -> truthy (strip text) = true ->
  is_append e = Ok true ->
  step st e =
    Ok {| paragraphs := paragraphs st;
          current_paragraph := current_paragraph st ++ py " " ++ strip text |}.
Proof.
  intros Ht Hs Ha. unfold step. rewrite Ht. simpl. rewrite Hs, Ha. reflexivity.
Qed.

Lemma step_new (st : state) (e : pyval) (text : pystr) :
  event_text e = Ok text -> truthy (strip text) = true ->
  is_append e = Ok false ->
  step st e =
    Ok {| paragraphs := flushed st; current_paragraph := strip text |}.
Proof.
  intros Ht Hs Ha. unfold step. rewrite Ht. simpl. rewrite Hs, Ha. reflexivity.
Qed.

Lemma loop_app (st : state) (events1 events2 : list pyval) :
  loop st (events1 ++ events2) =
    let* st' := loop st events1 in loop st' events2.
Proof.
  revert st. induction events1 as [|e events1 IH]; intros st; simpl; [reflexivity|].
  destruct (step st e); simpl; auto.
Qed.

Lemma buffer_holds_run (g : list pystr) (buffer : pystr) :
  g <> [] ->
  buffer_holds g buffer <->
  buffer = join (py " ") g \/ buffer = py " " ++ join (py " ") g.
Proof. destruct g; [congruence|reflexivity]. Qed.

(** What the buffer strips to. *)
Lemma buffer_strip (g : list pystr) (buffer : pystr) :
  buffer_holds g buffer -> Forall tight g -> strip buffer = join (py " ") g.
Proof.
  destruct g as [|x g].
  - unfold buffer_holds. intros -> _. reflexivity.
  - intros Hb Hg. apply buffer_holds_run in Hb; [|congruence].
    assert (tight (join (py " ") (x :: g))) as Ht
      by (apply tight_join; [congruence|exact Hg]).
    destruct Hb as [->| ->].
    + auto with pystr.
    + change (py " " ++ ?s) with (32 :: s). rewrite strip_space_cons by reflexivity.
      auto with pystr.
Qed.

Lemma buffer_truthy (g : list pystr) (buffer : pystr) :
  buffer_holds g buffer -> Forall tight g ->
  truthy (strip buffer) = match g with [] => false | _ => true end.
Proof.
  intros Hb Hg. rewrite (buffer_strip g buffer Hb Hg). destruct g as [|x g].
  - reflexivity.
  - apply tight_truthy, tight_join; [congruence|exact Hg].
Qed.

(** The texts of the open run are tight, as all the texts met are. *)
Ltac open_run_tight Hcat Htight Hg :=
  match type of Hcat with
  | concat _ ++ ?g = _ =>
      assert (Forall tight g) as Hg
        by (rewrite <- Hcat in Htight; apply Forall_app in Htight; tauto)
  end.

Lemma pass_inv_init : pass_inv [] init_state.
Proof. exists [], []. simpl. auto. Qed.

(** The paragraphs [flushed] hands out for a state that satisfies the
    invariant: the closed runs, and the open one when there is one. *)
Lemma pass_inv_flushed (texts : list pystr) (st : state) :
  pass_inv texts st ->
  exists groups,
    flushed st = map (join (py " ")) groups
    /\ Forall (fun run => run <> []) groups
    /\ concat groups = texts
    /\ Forall tight texts.
Proof.
  intros (groups & g & Hps & Hne & Hcat & Htight & Hbuf).
  open_run_tight Hcat Htight Hg.
  unfold flushed. rewrite (buffer_truthy g _ Hbuf Hg), (buffer_strip g _ Hbuf Hg).
  destruct g as [|x g].
  - exists groups. rewrite app_nil_r in Hcat. auto.
  - exists (groups ++ [x :: g]). rewrite Hps, map_app, concat_app. simpl.
    rewrite app_nil_r. repeat split; auto.
    apply Forall_app. split; [exact Hne|]. constructor; [congruence|constructor].
Qed.

Lemma pass_inv_step (texts : list pystr) (st : state) (e : pyval) (text : pystr) :
  pass_inv texts st -> event_text e = Ok text ->
  exists st', step st e = Ok st' /\ pass_inv (texts ++ spoken_text e) st'.
Proof.
  intros Hinv Ht. unfold spoken_text. rewrite Ht.
  destruct (truthy (strip text)) eqn:Hs.
  - (* the event has text *)
    pose proof (strip_truthy_tight text Hs) as Htext.
    destruct (is_append_total e text Ht) as [[|] Ha].
    + rewrite (step_append st e text Ht Hs Ha). eexists. split; [reflexivity|].
      destruct Hinv as (groups & g & Hps & Hne & Hcat & Htight & Hbuf).
      exists groups, (g ++ [strip text]). simpl. repeat split; auto.
      * rewrite app_assoc, Hcat. reflexivity.
      * apply Forall_app. split; [exact Htight|]. constructor; [exact Htext|constructor].
      * destruct g as [|x g].
        -- unfold buffer_holds in Hbuf. rewrite Hbuf. right. reflexivity.
        -- apply buffer_holds_run in Hbuf; [|congruence].
           apply buffer_holds_run; [discriminate|].
           rewrite join_snoc by congruence.
           destruct Hbuf as [->| ->]; [left|right]; rewrite <- ?app_assoc; reflexivity.
    + rewrite (step_new st e text Ht Hs Ha). eexists. split; [reflexivity|].
      destruct (pass_inv_flushed texts st Hinv) as (groups & Hps & Hne & Hcat & Htight).
      exists groups, [strip text]. simpl. repeat split; auto.
      * rewrite Hcat. reflexivity.
      * apply Forall_app. split; [exact Htight|]. constructor; [exact Htext|constructor].
  - (* a break *)
    rewrite (step_break st e text Ht Hs). eexists. split; [reflexivity|].
    rewrite app_nil_r.
    destruct (pass_inv_flushed texts st Hinv) as (groups & Hps & Hne & Hcat & Htight).
    destruct Hinv as (groups0 & g & Hps0 & Hne0 & Hcat0 & _ & Hbuf).
    open_run_tight Hcat0 Htight Hg.
    unfold flushed in Hps. rewrite (buffer_truthy g _ Hbuf Hg) in *.
    destruct g as [|x g].
    + exists groups0, []. unfold buffer_holds in *. repeat split; auto.
    + exists groups, []. simpl. rewrite app_nil_r. repeat split; auto.
Qed.

Lemma pass_inv_loop (events : list pyval) :
  forall (texts : list pystr) (st : state),
    pass_inv texts st -> forallb wf_event events = true ->
    exists st', loop st events = Ok st' /\ pass_inv (texts ++ spoken events) st'.
Proof.
  induction events as [|e events IH]; intros texts st Hinv Hwf.
  - exists st. simpl. rewrite app_nil_r. auto.
  - simpl in Hwf. apply andb_true_iff in Hwf as [He Hwf].
    destruct (wf_event_text e He) as [text Ht].
    destruct (pass_inv_step texts st e text Hinv Ht) as (st1 & Hstep & Hinv1).
    destruct (IH _ _ Hinv1 Hwf) as (st' & Hloop & Hinv').
    exists st'. simpl. rewrite Hstep. simpl. split; [exact Hloop|].
    unfold spoken in *. simpl. rewrite app_assoc. exact Hinv'.
Qed.

(** In a state the loop can reach the buffer is empty or holds text: it is
    never white space only. *)
Lemma reachable_buffer (st : state) :
  reachable st ->
  current_paragraph st = [] \/ truthy (strip (current_paragraph st)) = true.
Proof.
  intros [events Hloop].
  assert (forall evs texts st0 st1,
             pass_inv texts st0 -> loop st0 evs = Ok st1 ->
             exists texts', pass_inv texts' st1) as Hgen.
  { clear. induction evs as [|e evs IH]; intros texts st0 st1 Hinv Hl.
    - simpl in Hl. injection Hl as <-. eauto.
    - simpl in Hl. apply bind_ok in Hl as (st' & Hstep & Hl).
      assert (exists text, event_text e = Ok text) as [text Ht].
      { unfold step in Hstep. destruct (event_text e); [eauto|discriminate]. }
      destruct (pass_inv_step texts st0 e text Hinv Ht) as (st'' & Hstep' & Hinv').
      rewrite Hstep in Hstep'. injection Hstep' as <-. eauto. }
  destruct (Hgen _ _ _ _ pass_inv_init Hloop)
    as (texts & groups & g & _ & _ & Hcat & Htight & Hbuf).
  open_run_tight Hcat Htight Hg.
  rewrite (buffer_truthy g _ Hbuf Hg). destruct g; unfold buffer_holds in Hbuf; auto.
Qed.

End PassFacts.

(** ** Loading and writing *)

Section IoFacts.

Variable w : world.

Lemma writelines_encodable (os : os_name) (text written : pystr) :
  existsb is_surrogate text = false ->
  writelines os text written = (written ++ stored_form os text, Ok tt).
Proof.
  revert written. induction text as [|c text IH]; intros written H; simpl.
  - rewrite app_nil_r. reflexivity.
  - simpl in H. apply orb_false_iff in H as [Hc H].
    unfold write_char. rewrite Hc, IH by exact H.
    rewrite <- app_assoc. reflexivity.
Qed.

Lemma writelines_surrogate (os : os_name) (text written : pystr) :
  existsb is_surrogate text = true ->
  snd (writelines os text written) = Raise ValueError.
Proof.
  revert written. induction text as [|c text IH]; intros written H; simpl.
  - discriminate.
  - simpl in H. unfold write_char. destruct (is_surrogate c); [reflexivity|].
    apply IH, H.
Qed.

(** How [write_file] ends, and what it leaves on disk when it ends well. *)
Lemma write_file_outcome (path text : pystr) (d : disk) :
  fst (write_file w path text d) =
    match write_error w text path with
    | Some e => Raise e
    | None => Ok tt
    end.
Proof.
  unfold write_file, write_error. destruct (open_for_writing w path); [reflexivity|].
  destruct (existsb is_surrogate text) eqn:Hs.
  - pose proof (writelines_surrogate (os w) text [] Hs) as H.
    destruct (writelines (os w) text []). exact H.
  - rewrite writelines_encodable by exact Hs. reflexivity.
Qed.

Lemma write_file_done (path text : pystr) (d : disk) :
  write_error w text path = None ->
  write_file w path text d = (Ok tt, <[path := stored_form (os w) text]> d).
Proof.
  unfold write_file, write_error. destruct (open_for_writing w path); [discriminate|].
  destruct (existsb is_surrogate text) eqn:Hs; [discriminate|]. intros _.
  rewrite writelines_encodable by exact Hs. reflexivity.
Qed.

Lemma write_file_refused (path text : pystr) (d : disk) (e : exn) :
  open_for_writing w path = Some e -> write_file w path text d = (Raise e, d).
Proof. unfold write_file. intros ->. reflexivity. Qed.

(** [persist] returns the paragraphs when every write succeeds, and ends
    on the first write error otherwise. *)
Lemma persist_outcome (out_file : option path_arg)
    (output_file : option pystr) (ps : list pystr) (d : disk) :
  fst (persist w out_file output_file ps d) =
    match first_write_error w (Str.join (py " ") ps)
            (destinations out_file output_file) with
    | Some e => Raise e
    | None => Ok (Some ps)
    end.
Proof.
  unfold persist, io_bind, destinations. simpl.
  pose proof (write_file_outcome (py_str out_file) (Str.join (py " ") ps) d) as H1.
  destruct (write_file w (py_str out_file) (Str.join (py " ") ps) d) as [[[]|e1] d1];
    simpl in H1; destruct (write_error w _ (py_str out_file)); try discriminate.
  - destruct output_file as [path|]; [|reflexivity].
    destruct (Str.truthy path); [|reflexivity]. simpl.
    pose proof (write_file_outcome path (Str.join (py " ") ps) d1) as H2.
    destruct (write_file w path (Str.join (py " ") ps) d1) as [[[]|e2] d2];
      simpl in H2; destruct (write_error w _ path); try discriminate.
    + reflexivity.
    + simpl. congruence.
  - simpl. congruence.
Qed.

(** After a [persist] that returned, every destination holds the joined
    paragraphs, as the text layer stores them. *)
Lemma persist_disk (out_file : option path_arg)
    (output_file : option pystr) (ps : list pystr) (d d' : disk)
    (r : option (list pystr)) :
  persist w out_file output_file ps d = (Ok r, d') ->
  r = Some ps
  /\ Forall (fun path => d' !! path = Some (stored_form (os w) (Str.join (py " ") ps)))
       (destinations out_file output_file).
Proof.
  intros H.
  pose proof (persist_outcome out_file output_file ps d) as Hout.
  rewrite H in Hout. cbn [fst] in Hout.
  destruct (first_write_error _ _ _) eqn:Hfirst; [discriminate|].
  injection Hout as ->. split; [reflexivity|].
  revert H Hfirst. unfold persist, io_bind, destinations. simpl.
  destruct (write_error w _ (py_str out_file)) eqn:E1; [discriminate|].
  rewrite (write_file_done _ _ _ E1).
  destruct output_file as [path|].
  - destruct (Str.truthy path).
    + simpl. destruct (write_error w _ path) eqn:E2; [discriminate|].
      rewrite (write_file_done _ _ _ E2). intros [= <-] _.
      repeat constructor.
      * destruct (decide (path = py_str out_file)) as [->|Hne].
        -- apply lookup_insert_eq.
        -- rewrite lookup_insert_ne by exact Hne. apply lookup_insert_eq.
      * apply lookup_insert_eq.
    + intros [= <-] _. repeat constructor. apply lookup_insert_eq.
  - intros [= <-] _. repeat constructor. apply lookup_insert_eq.
Qed.

Lemma parse_cc_loaded (source : pystr) (out_file : option path_arg)
    (output_file : option pystr) (d : disk) (data : pyval) (ps : list pystr) :
  load_data w source = Ok data -> reconstruct data = Ok ps ->
  parse_cc w source out_file output_file d = persist w out_file output_file ps d.
Proof.
  intros Hload Hrec. unfold parse_cc, io_bind, io_lift. rewrite Hload, Hrec.
  reflexivity.
Qed.

(** A call that returned a list went through the three stages. *)
Lemma parse_cc_returned (source : pystr) (out_file : option path_arg)
    (output_file : option pystr) (d d' : disk) (ps : list pystr) :
  parse_cc w source out_file output_file d = (Ok (Some ps), d') ->
  exists data,
    load_data w source = Ok data /\ reconstruct data = Ok ps
    /\ persist w out_file output_file ps d = (Ok (Some ps), d').
Proof.
  unfold parse_cc, io_bind, io_lift. intros H.
  destruct (load_data w source) as [data|[]]; try discriminate.
  destruct (reconstruct data) as [ps'|] eqn:Hrec; [|discriminate].
  destruct (persist_disk _ _ _ _ _ _ H) as [[= ->] _]. eauto.
Qed.

(** Well-formed data goes through the pass. *)
Lemma wf_data_events (data : pyval) :
  wf_data data = true ->
  exists events, events_of data = Ok events /\ forallb wf_event events = true.
Proof.
  destruct data as [| | | | | |items]; try discriminate. unfold events_of. simpl.
  destruct (Py.dict_lookup items (py "events")) as [[| | | | |events|]|];
    try discriminate; simpl; eauto.
Qed.

Lemma reconstruct_events (data : pyval) (events : list pyval) (st : state) :
  events_of data = Ok events -> loop init_state events = Ok st ->
  reconstruct data = Ok (flushed st).
Proof. intros He Hl. unfold reconstruct. rewrite He. simpl. rewrite Hl. reflexivity. Qed.

Lemma wf_data_reconstruct (data : pyval) :
  wf_data data = true -> exists ps, reconstruct data = Ok ps.
Proof.
  intros (events & He & Hwf)%wf_data_events.
  destruct (pass_inv_loop events [] init_state pass_inv_init Hwf) as (st & Hl & _).
  eauto using reconstruct_events.
Qed.

Lemma stored_form_cons (os : os_name) (c : N) (text : pystr) :
  stored_form os (c :: text) =
    (if c =? 0x0A then linesep os else [c]) ++ stored_form os text.
Proof. reflexivity. Qed.

Lemma universal_newlines_other (c : N) (stored : pystr) :
  c <> 0x0D -> universal_newlines (c :: stored) = c :: universal_newlines stored.
Proof.
  intros H. cbn [universal_newlines].
  destruct (N.eqb_spec c 0x0D); [congruence|reflexivity].
Qed.

(** Reading back what the text layer stored gives the text again when it
    has no carriage return. *)
Lemma universal_newlines_stored (os : os_name) (text : pystr) :
  existsb (N.eqb 0x0D) text = false ->
  universal_newlines (stored_form os text) = text.
Proof.
  induction text as [|c text IH]; [reflexivity|].
  cbn [existsb]. intros [Hc H]%orb_false_iff. specialize (IH H).
  apply N.eqb_neq in Hc. rewrite stored_form_cons.
  destruct (N.eqb_spec c 0x0A) as [->|Hlf].
  - destruct os; cbn [linesep app].
    + rewrite universal_newlines_other by discriminate. rewrite IH. reflexivity.
    + change (universal_newlines (0x0D :: 0x0A :: ?r))
        with (0x0A :: universal_newlines r).
      rewrite IH. reflexivity.
  - cbn [app]. rewrite universal_newlines_other by congruence.
    rewrite IH. reflexivity.
Qed.

Lemma stored_form_posix (text : pystr) : stored_form Posix text = text.
Proof.
  induction text as [|c text IH]; [reflexivity|]. rewrite stored_form_cons, IH.
  destruct (N.eqb_spec c 0x0A) as [->|_]; reflexivity.
Qed.

End IoFacts.

(** ** The paragraphs of [parse_cc] *)

Lemma parse_cc_result (w : world) (source : pystr) (out_file : option path_arg)
    (output_file : option pystr) (d : disk) (data : pyval) (ps : list pystr)
    (r : option (list pystr)) :
  load_data w source = Ok data -> reconstruct data = Ok ps ->
  fst (parse_cc w source out_file output_file d) = Ok r -> r = Some ps.
Proof.
  intros Hload Hrec. rewrite (parse_cc_loaded _ _ _ _ _ _ _ Hload Hrec).
  rewrite persist_outcome. destruct (first_write_error _ _ _); congruence.
Qed.

Lemma tight_groups (groups : list (list pystr)) :
  Forall (fun run => run <> []) groups -> Forall Str.tight (concat groups) ->
  Forall Str.tight (map (Str.join (py " ")) groups).
Proof.
  induction groups as [|g groups IH]; simpl; [constructor|].
  intros Hne Hall. apply Forall_cons_1 in Hne as [Hg Hne].
  apply Forall_app in Hall as [Hgt Hall].
  constructor; auto with pystr.
Qed.

(** C3. For every sequence of well-formed events, the paragraphs
    [parse_cc] builds are none of them empty or white space only (each is
    its own stripped form), and they are the stripped texts of the events
    that have text, in the order of the events, cut into consecutive
    non-empty runs and each run joined by single spaces: no text is
    repeated, dropped or moved, and the events without text only close a
    run. Joined by single spaces the paragraphs are those texts joined by
    single spaces. A call of [parse_cc] that returns on such data returns
    this list. *)
Theorem parse_cc_paragraphs_keep_event_text (data : pyval) (events : list pyval) :
  events_of data = Ok events ->
  forallb wf_event events = true ->
  exists ps,
    reconstruct data = Ok ps
    /\ Forall (fun p => Str.blank p = false /\ Str.strip p = p) ps
    /\ (exists groups,
          Forall (fun run => run <> []) groups
          /\ concat groups = spoken events
          /\ ps = map (Str.join (py " ")) groups)
    /\ Str.join (py " ") ps = Str.join (py " ") (spoken events)
    /\ (forall w source out_file output_file d r,
          load_data w source = Ok data ->
          fst (parse_cc w source out_file output_file d) = Ok r -> r = Some ps).
Proof.
  intros Hev Hwf.
  destruct (pass_inv_loop events [] init_state pass_inv_init Hwf) as (st & Hl & Hinv).
  destruct (pass_inv_flushed _ _ Hinv) as (groups & Hps & Hne & Hcat & Htight).
  simpl in Hcat, Htight. rewrite <- Hcat in Htight.
  pose proof (reconstruct_events data events st Hev Hl) as Hrec.
  exists (flushed st). split; [exact Hrec|]. split; [|split; [|split]].
  - rewrite Hps.
    eapply Forall_impl; [apply tight_groups; eassumption|].
    intros p Hp. split; [apply tight_not_blank, Hp|apply strip_tight, Hp].
  - exists groups. auto.
  - rewrite Hps, <- Hcat. apply join_groups, Hne.
  - intros w source out_file output_file d r Hload Hr.
    eapply parse_cc_result; eassumption.
Qed.

Lemma parse_cc_paragraphs_keep_event_text_witness :
  exists ps,
    reconstruct
      (track [append_event [seg " so"]; event [seg "Hello"; seg " wor"; seg "ld "];
              append_event [seg "again"]; event [seg "   "];
              event [seg "Bye"]]) = Ok ps
    /\ Forall (fun p => Str.blank p = false /\ Str.strip p = p) ps
    /\ (exists groups,
          Forall (fun run => run <> []) groups
          /\ concat groups = [py "so"; py "Hello world"; py "again"; py "Bye"]
          /\ ps = map (Str.join (py " ")) groups)
    /\ Str.join (py " ") ps = py "so Hello world again Bye".
Proof.
  destruct (parse_cc_paragraphs_keep_event_text
              (track [append_event [seg " so"]; event [seg "Hello"; seg " wor"; seg "ld "];
                      append_event [seg "again"]; event [seg "   "];
                      event [seg "Bye"]])
              [append_event [seg " so"]; event [seg "Hello"; seg " wor"; seg "ld "];
               append_event [seg "again"]; event [seg "   "];
               event [seg "Bye"]] eq_refl eq_refl)
    as (ps & Hrec & Hall & Hgroups & Hjoin & _).
  exists ps. repeat split; assumption.
Defined.

(** C4. An event that has text once stripped and whose ["aAppend"] equals
    1 leaves the emitted paragraphs as they are and puts one space and the
    stripped text after the buffer, whatever the buffer holds; on an empty
    buffer the space that comes first is gone once the buffer is stripped
    for emission. The events [Hello], then [there] with [aAppend = 1], give
    the one paragraph [Hello there]. *)
Theorem parse_cc_append_continues (st : state) (e : pyval) (text : pystr) :
  event_text e = Ok text ->
  Str.truthy (Str.strip text) = true ->
  is_append e = Ok true ->
  step st e =
    Ok {| paragraphs := paragraphs st;
          current_paragraph := current_paragraph st ++ py " " ++ Str.strip text |}
  /\ Str.strip ([] ++ py " " ++ Str.strip text) = Str.strip text
  /\ reconstruct (track [event [seg "Hello"]; append_event [seg "there"]])
     = Ok [py "Hello there"].
Proof.
  intros Ht Hs Ha. split; [apply (step_append st e text Ht Hs Ha)|]. split.
  - change ([] ++ py " " ++ ?s) with (32 :: s).
    rewrite strip_space_cons by reflexivity. apply strip_idempotent.
  - reflexivity.
Qed.

Lemma parse_cc_append_continues_witness :
  step {| paragraphs := [py "Intro"]; current_paragraph := py "Hello" |}
       (append_event [seg " there "])
  = Ok {| paragraphs := [py "Intro"]; current_paragraph := py "Hello there" |}
  /\ step init_state (append_event [seg "there"])
     = Ok {| paragraphs := []; current_paragraph := py " there" |}.
Proof.
  split.
  - apply (parse_cc_append_continues
             {| paragraphs := [py "Intro"]; current_paragraph := py "Hello" |}
             (append_event [seg " there "]) (py " there ")); reflexivity.
  - apply (parse_cc_append_continues init_state
             (append_event [seg "there"]) (py "there")); reflexivity.
Defined.

(** ** Events and segments that lack a field *)

Lemma mapM_app {A B : Type} (f : A -> result B) (l1 l2 : list A) :
  mapM f (l1 ++ l2)
  = let* ys1 := mapM f l1 in let* ys2 := mapM f l2 in Ok (ys1 ++ ys2).
Proof.
  induction l1 as [|x l1 IH]; simpl.
  - destruct (mapM f l2); reflexivity.
  - destruct (f x) as [y|e]; simpl; [|reflexivity]. rewrite IH.
    destruct (mapM f l1) as [ys1|e]; simpl; [|reflexivity].
    destruct (mapM f l2); reflexivity.
Qed.

(** Joining on the empty string is concatenation. *)
Lemma join_empty_sep (parts : list pystr) : Str.join [] parts = concat parts.
Proof.
  induction parts as [|x [|y rest] IH]; [reflexivity| |].
  - simpl. rewrite app_nil_r. reflexivity.
  - change (Str.join [] (x :: y :: rest)) with (x ++ [] ++ Str.join [] (y :: rest)).
    rewrite IH. reflexivity.
Qed.

Lemma dict_lookup_head (key : pystr) (v : pyval) (rest : list (pystr * pyval)) :
  Py.dict_lookup ((key, v) :: rest) key = Some v.
Proof. simpl. destruct (decide (key = key)); [reflexivity|contradiction]. Qed.

(** The text of an event that has a list of segments. *)
Lemma event_text_segs (items : list (pystr * pyval)) (segs : list pyval) :
  Py.dict_lookup items (py "segs") = Some (PyList segs) ->
  event_text (PyDict items)
  = let* texts := mapM (fun seg => Py.get seg (py "utf8") (PyStr [])) segs in
    Py.join [] texts.
Proof. intros Hsegs. unfold event_text. cbn [Py.get]. rewrite Hsegs. reflexivity. Qed.

(** An event with no ["segs"], whatever else it holds, has the empty text. *)
Lemma event_text_without_segs (items : list (pystr * pyval)) :
  Py.dict_lookup items (py "segs") = None -> event_text (PyDict items) = Ok [].
Proof. intros Hsegs. unfold event_text. cbn [Py.get]. rewrite Hsegs. reflexivity. Qed.

(** A segment with no ["utf8"], whatever else it holds, adds nothing to the
    text of its event, and changes nothing to how the event evaluates. *)
Lemma event_text_skips_segment (items seg_items : list (pystr * pyval))
    (segs1 segs2 : list pyval) :
  Py.dict_lookup items (py "segs") = Some (PyList (segs1 ++ PyDict seg_items :: segs2)) ->
  Py.dict_lookup seg_items (py "utf8") = None ->
  event_text (PyDict items) = event_text (event (segs1 ++ segs2)).
Proof.
  intros Hsegs Hutf8.
  rewrite (event_text_segs items _ Hsegs).
  unfold event. rewrite (event_text_segs _ _ (dict_lookup_head _ _ _)).
  rewrite !mapM_app. cbn [mapM Py.get]. rewrite Hutf8.
  destruct (mapM _ segs1) as [texts1|e]; simpl; [|reflexivity].
  destruct (mapM _ segs2) as [texts2|e]; simpl; [|reflexivity].
  unfold Py.join. rewrite !mapM_app. cbn [mapM Py.as_str].
  destruct (mapM Py.as_str texts1) as [strs1|e]; simpl; [|reflexivity].
  destruct (mapM Py.as_str texts2) as [strs2|e]; simpl; [|reflexivity].
  rewrite !join_empty_sep, !concat_app. reflexivity.
Qed.

(** An event all of whose segments lack ["utf8"] has the empty text. *)
Lemma event_text_empty_segments (items : list (pystr * pyval)) (segs : list pyval) :
  Py.dict_lookup items (py "segs") = Some (PyList segs) ->
  Forall (fun seg => exists seg_items,
            seg = PyDict seg_items /\ Py.dict_lookup seg_items (py "utf8") = None) segs ->
  event_text (PyDict items) = Ok [].
Proof.
  intros Hsegs Hall. rewrite (event_text_segs items segs Hsegs). clear Hsegs.
  assert (mapM (fun seg => Py.get seg (py "utf8") (PyStr [])) segs
          = Ok (map (fun _ => PyStr []) segs)) as ->.
  { induction Hall as [|s segs (seg_items & -> & Hutf8) _ IH]; [reflexivity|].
    cbn [mapM Py.get]. rewrite Hutf8, IH. reflexivity. }
  simpl. unfold Py.join.
  assert (mapM Py.as_str (map (fun _ : pyval => PyStr []) segs)
          = Ok (map (fun _ => []) segs)) as ->.
  { clear Hall. induction segs as [|s segs IH]; [reflexivity|].
    cbn [map mapM Py.as_str]. rewrite IH. reflexivity. }
  simpl. rewrite join_empty_sep. f_equal.
  clear Hall. induction segs as [|s segs IH]; [reflexivity|exact IH].
Qed.

(** C5. An event whose text is empty once stripped (its segments missing
    or empty, a segment without its text field, or white space only) is a
    break: in every state the loop can be in, the step raises nothing,
    emits the stripped buffer exactly when that is not empty, leaves the
    buffer empty, and nothing of the event goes into a paragraph. A missing
    field degrades to the empty text on every event: an event with no
    [segs], whatever its other keys, has the empty text and is a break; a
    segment with no [utf8], whatever its other keys, can be taken out of
    its event without changing how the event evaluates; an event all of
    whose segments lack [utf8] has the empty text and is a break. The
    events [Hello], one with no segment, [World] give [Hello] and
    [World]. *)
Theorem parse_cc_break_flushes (st : state) (e : pyval) (text : pystr) :
  reachable st ->
  event_text e = Ok text ->
  Str.truthy (Str.strip text) = false ->
  step st e =
    Ok {| paragraphs :=
            if Str.truthy (Str.strip (current_paragraph st))
            then paragraphs st ++ [Str.strip (current_paragraph st)]
            else paragraphs st;
          current_paragraph := [] |}
  /\ spoken_text e = []
  /\ (forall items,
        Py.dict_lookup items (py "segs") = None ->
        event_text (PyDict items) = Ok []
        /\ is_break (PyDict items) = true
        /\ spoken_text (PyDict items) = []
        /\ step st (PyDict items) =
             Ok {| paragraphs :=
                     if Str.truthy (Str.strip (current_paragraph st))
                     then paragraphs st ++ [Str.strip (current_paragraph st)]
                     else paragraphs st;
                   current_paragraph := [] |})
  /\ (forall items segs1 seg_items segs2,
        Py.dict_lookup items (py "segs")
        = Some (PyList (segs1 ++ PyDict seg_items :: segs2)) ->
        Py.dict_lookup seg_items (py "utf8") = None ->
        event_text (PyDict items) = event_text (event (segs1 ++ segs2)))
  /\ (forall items segs,
        Py.dict_lookup items (py "segs") = Some (PyList segs) ->
        Forall (fun seg => exists seg_items,
                  seg = PyDict seg_items
                  /\ Py.dict_lookup seg_items (py "utf8") = None) segs ->
        event_text (PyDict items) = Ok []
        /\ is_break (PyDict items) = true
        /\ spoken_text (PyDict items) = []
        /\ step st (PyDict items) =
             Ok {| paragraphs :=
                     if Str.truthy (Str.strip (current_paragraph st))
                     then paragraphs st ++ [Str.strip (current_paragraph st)]
                     else paragraphs st;
                   current_paragraph := [] |})
  /\ event_text (PyDict []) = Ok []
  /\ event_text (event [PyDict []; seg ""]) = Ok []
  /\ is_break (event [seg "   "]) = true
  /\ reconstruct (track [event [seg "Hello"]; event []; event [seg "World"]])
     = Ok [py "Hello"; py "World"]
  /\ reconstruct (track [event [seg "Hello"]; PyDict []; event [PyDict []];
                         event [seg "   "]; event [seg "World"]])
     = Ok [py "Hello"; py "World"].
Proof.
  intros Hreach Ht Hs.
  assert (forall e' text',
            event_text e' = Ok text' -> Str.truthy (Str.strip text') = false ->
            step st e' =
              Ok {| paragraphs :=
                      if Str.truthy (Str.strip (current_paragraph st))
                      then paragraphs st ++ [Str.strip (current_paragraph st)]
                      else paragraphs st;
                    current_paragraph := [] |}) as Hstep.
  { intros e' text' Ht' Hs'. rewrite (step_break st e' text' Ht' Hs').
    destruct (reachable_buffer st Hreach) as [Hempty|Hfull].
    - rewrite Hempty. destruct st as [ps buffer]. simpl in *. subst. reflexivity.
    - rewrite Hfull. reflexivity. }
  assert (forall e', event_text e' = Ok [] ->
            event_text e' = Ok []
            /\ is_break e' = true
            /\ spoken_text e' = []
            /\ step st e' =
                 Ok {| paragraphs :=
                         if Str.truthy (Str.strip (current_paragraph st))
                         then paragraphs st ++ [Str.strip (current_paragraph st)]
                         else paragraphs st;
                       current_paragraph := [] |}) as Hempty_text.
  { intros e' He'. split; [exact He'|]. unfold is_break, spoken_text. rewrite He'.
    repeat split. exact (Hstep e' [] He' eq_refl). }
  split; [exact (Hstep e text Ht Hs)|].
  split; [unfold spoken_text; rewrite Ht, Hs; reflexivity|].
  split; [intros items Hsegs; apply Hempty_text, event_text_without_segs, Hsegs|].
  split; [intros items segs1 seg_items segs2; apply event_text_skips_segment|].
  split.
  - intros items segs Hsegs Hall.
    apply Hempty_text, (event_text_empty_segments items segs Hsegs Hall).
  - repeat split; reflexivity.
Qed.

Lemma parse_cc_break_flushes_witness :
  step {| paragraphs := []; current_paragraph := py "Hello" |} (event [seg "   "])
  = Ok {| paragraphs := [py "Hello"]; current_paragraph := [] |}
  /\ step init_state (PyDict []) = Ok init_state
  /\ step {| paragraphs := []; current_paragraph := py "Hello" |}
       (PyDict [(py "tStartMs", PyInt 0); (py "dDurationMs", PyInt 4000)])
     = Ok {| paragraphs := [py "Hello"]; current_paragraph := [] |}
  /\ event_text (PyDict [(py "tStartMs", PyInt 0);
                         (py "segs", PyList [seg "Hello"; PyDict [(py "tOffsetMs", PyInt 7)];
                                             seg " World"])])
     = Ok (py "Hello World").
Proof.
  assert (reachable {| paragraphs := []; current_paragraph := py "Hello" |}) as Hreach
    by (exists [event [seg "Hello"]]; reflexivity).
  split; [|split; [|split]].
  - exact (proj1 (parse_cc_break_flushes
                    {| paragraphs := []; current_paragraph := py "Hello" |}
                    (event [seg "   "]) (py "   ") Hreach eq_refl eq_refl)).
  - assert (reachable init_state) as Hinit by (exists []; reflexivity).
    exact (proj1 (parse_cc_break_flushes init_state (PyDict []) [] Hinit
                    eq_refl eq_refl)).
  - destruct (parse_cc_break_flushes
                {| paragraphs := []; current_paragraph := py "Hello" |}
                (event [seg "   "]) (py "   ") Hreach eq_refl eq_refl)
      as (_ & _ & Hmissing & _).
    apply (Hmissing [(py "tStartMs", PyInt 0); (py "dDurationMs", PyInt 4000)]).
    reflexivity.
  - destruct (parse_cc_break_flushes
                {| paragraphs := []; current_paragraph := py "Hello" |}
                (event [seg "   "]) (py "   ") Hreach eq_refl eq_refl)
      as (_ & _ & _ & Hskip & _).
    rewrite (Hskip _ [seg "Hello"] [(py "tOffsetMs", PyInt 7)] [seg " World"]);
      reflexivity.
Defined.

(** C6. An event that has text once stripped and whose ["aAppend"] does
    not equal 1 starts a paragraph: the stripped buffer is emitted first
    when it is not empty, and the buffer becomes the stripped text of the
    event, whatever it held. The events [First], [Second] give [First] and
    [Second]. *)
Theorem parse_cc_new_paragraph (st : state) (e : pyval) (text : pystr) :
  event_text e = Ok text ->
  Str.truthy (Str.strip text) = true ->
  is_append e = Ok false ->
  step st e =
    Ok {| paragraphs :=
            if Str.truthy (Str.strip (current_paragraph st))
            then paragraphs st ++ [Str.strip (current_paragraph st)]
            else paragraphs st;
          current_paragraph := Str.strip text |}
  /\ reconstruct (track [event [seg "First"]; event [seg "Second"]])
     = Ok [py "First"; py "Second"].
Proof.
  intros Ht Hs Ha. split; [|reflexivity].
  apply (step_new st e text Ht Hs Ha).
Qed.

Lemma parse_cc_new_paragraph_witness :
  step {| paragraphs := []; current_paragraph := py "First" |} (event [seg " Second"])
  = Ok {| paragraphs := [py "First"]; current_paragraph := py "Second" |}
  /\ step init_state (event [seg "First"])
     = Ok {| paragraphs := []; current_paragraph := py "First" |}.
Proof.
  split.
  - apply (parse_cc_new_paragraph
             {| paragraphs := []; current_paragraph := py "First" |}
             (event [seg " Second"]) (py " Second")); reflexivity.
  - apply (parse_cc_new_paragraph init_state (event [seg "First"]) (py "First"));
      reflexivity.
Defined.

(** ** Loading, returning and writing in [parse_cc] *)

Lemma loop_breaks (events : list pyval) :
  forallb is_break events = true -> loop init_state events = Ok init_state.
Proof.
  induction events as [|e events IH]; [reflexivity|]. simpl.
  intros [He Hrest]%andb_true_iff. unfold is_break in He.
  destruct (event_text e) as [text|] eqn:Ht; [|discriminate].
  apply negb_true_iff in He. rewrite (step_break init_state e text Ht He).
  simpl. exact (IH Hrest).
Qed.

Lemma writes_succeed (w : world) (text : pystr) (paths : list pystr) :
  existsb is_surrogate text = false ->
  Forall (fun path => open_for_writing w path = None) paths ->
  first_write_error w text paths = None.
Proof.
  intros Henc. induction 1 as [|path paths Hopen _ IH]; [reflexivity|].
  simpl. unfold write_error. rewrite Hopen, Henc. exact IH.
Qed.


(** C1, as the code has it. When the source loads and its data is well
    formed, [parse_cc] ends on the error of the first destination whose
    write fails (the exception [open] raised, when the destination cannot
    be opened) and returns nothing; it returns the paragraphs when no
    write fails. A destination [str(out_file)] that cannot be opened
    leaves the disk as it was. *)
Theorem parse_cc_write_failure_propagates (w : world) (source : pystr)
    (out_file : option path_arg) (output_file : option pystr) (d : disk)
    (data : pyval) :
  load_data w source = Ok data ->
  wf_data data = true ->
  exists ps,
    reconstruct data = Ok ps
    /\ fst (parse_cc w source out_file output_file d) =
         match first_write_error w (Str.join (py " ") ps)
                 (destinations out_file output_file) with
         | Some e => Raise e
         | None => Ok (Some ps)
         end
    /\ (forall e, open_for_writing w (py_str out_file) = Some e ->
          parse_cc w source out_file output_file d = (Raise e, d)).
Proof.
  intros Hload Hwf. destruct (wf_data_reconstruct data Hwf) as [ps Hrec].
  exists ps. rewrite (parse_cc_loaded _ _ _ _ _ _ _ Hload Hrec).
  split; [exact Hrec|]. split; [apply persist_outcome|].
  intros e He. unfold persist, io_bind.
  rewrite (write_file_refused _ _ _ _ _ He). reflexivity.
Qed.

Lemma parse_cc_write_failure_propagates_witness :
  fst (parse_cc (read_only (track [event [seg "Hello"]])) cc_url out_txt None ∅)
  = Raise OSError
  /\ fst (parse_cc (serving (track [event [seg "Hello"]])) cc_url out_txt None ∅)
     = Ok (Some [py "Hello"]).
Proof.
  split.
  - destruct (parse_cc_write_failure_propagates
                (read_only (track [event [seg "Hello"]])) cc_url out_txt None ∅
                (track [event [seg "Hello"]]) eq_refl eq_refl)
      as (ps & Hrec & Hout & _).
    injection Hrec as <-. exact Hout.
  - destruct (parse_cc_write_failure_propagates
                (serving (track [event [seg "Hello"]])) cc_url out_txt None ∅
                (track [event [seg "Hello"]]) eq_refl eq_refl)
      as (ps & Hrec & Hout & _).
    injection Hrec as <-. exact Hout.
Defined.

(** C1 as stated fails: the source loads, the pass builds [Hello], the
    destination cannot be opened, and the call ends on [OSError]: no
    paragraph is returned. *)
Lemma parse_cc_write_failure_returns_nothing :
  load_data (read_only (track [event [seg "Hello"]])) cc_url
  = Ok (track [event [seg "Hello"]])
  /\ reconstruct (track [event [seg "Hello"]]) = Ok [py "Hello"]
  /\ open_for_writing (read_only (track [event [seg "Hello"]])) (py "out.txt")
     = Some OSError
  /\ parse_cc (read_only (track [event [seg "Hello"]])) cc_url out_txt None ∅
     = (Raise OSError, ∅).
Proof. repeat split. Qed.

(** C2. When [load_data] raises [RuntimeError], its error for a source
    that cannot be retrieved, [parse_cc] raises nothing and returns
    [None]; it builds no paragraph and writes no file. *)
Theorem parse_cc_source_unavailable (w : world) (source : pystr)
    (out_file : option path_arg) (output_file : option pystr) (d : disk) :
  load_data w source = Raise RuntimeError ->
  parse_cc w source out_file output_file d = (Ok None, d).
Proof. intros H. unfold parse_cc. rewrite H. reflexivity. Qed.

Lemma parse_cc_source_unavailable_witness :
  (load_data unavailable cc_url = Raise RuntimeError
   /\ parse_cc unavailable cc_url out_txt None ∅ = (Ok None, ∅))
  /\ (load_data unavailable (py "track.json3") = Raise RuntimeError
      /\ parse_cc unavailable (py "track.json3") out_txt (Some (py "copy.txt")) ∅
         = (Ok None, ∅)).
Proof.
  split; (split; [reflexivity|apply parse_cc_source_unavailable; reflexivity]).
Defined.



(** C8, as the code has it. After a call of [parse_cc] that returned the
    paragraphs, each destination ([str(out_file)], and the path of
    [output_file] when one is given) holds the paragraphs joined by single
    spaces, every line feed stored as the line separator of the platform:
    on POSIX it holds that string character for character. Reading a
    destination back gives exactly the joined string when that string has
    no carriage return. *)
Theorem parse_cc_persisted_text (w : world) (source : pystr)
    (out_file : option path_arg) (output_file : option pystr) (d d' : disk)
    (ps : list pystr) :
  parse_cc w source out_file output_file d = (Ok (Some ps), d') ->
  Forall
    (fun path =>
       d' !! path = Some (stored_form (os w) (Str.join (py " ") ps))
       /\ (os w = Posix -> d' !! path = Some (Str.join (py " ") ps))
       /\ (existsb (N.eqb 0x0D) (Str.join (py " ") ps) = false ->
           read_text d' path = Ok (Str.join (py " ") ps)))
    (destinations out_file output_file).
Proof.
  intros (data & _ & _ & Hpersist)%parse_cc_returned.
  apply persist_disk in Hpersist as [_ Hdisk].
  eapply Forall_impl; [exact Hdisk|]. cbn beta. intros path Hpath.
  split; [exact Hpath|]. split.
  - intros Hos. rewrite Hpath, Hos, stored_form_posix. reflexivity.
  - intros Hcr. unfold read_text. rewrite Hpath.
    rewrite universal_newlines_stored by exact Hcr. reflexivity.
Qed.

Lemma parse_cc_persisted_text_witness :
  Forall
    (fun path =>
       snd (parse_cc (serving (track [event [seg "Hello"]; event [seg "World"]]))
              cc_url out_txt (Some (py "copy.txt")) ∅) !! path
       = Some (py "Hello World")
       /\ read_text
            (snd (parse_cc (serving (track [event [seg "Hello"]; event [seg "World"]]))
                    cc_url out_txt (Some (py "copy.txt")) ∅)) path
          = Ok (py "Hello World"))
    [py "out.txt"; py "copy.txt"].
Proof.
  eapply Forall_impl.
  - apply (parse_cc_persisted_text
             (serving (track [event [seg "Hello"]; event [seg "World"]]))
             cc_url out_txt (Some (py "copy.txt")) ∅
             (snd (parse_cc (serving (track [event [seg "Hello"]; event [seg "World"]]))
                     cc_url out_txt (Some (py "copy.txt")) ∅))
             [py "Hello"; py "World"]).
    reflexivity.
  - cbn beta. intros path (_ & Hposix & Hread). split.
    + apply Hposix. reflexivity.
    + apply Hread. reflexivity.
Defined.

(** C8 as stated fails: a call returns the one paragraph [a], carriage
    return, [b] and stores it as it is; reading the file back gives [a],
    line feed, [b], which is not the paragraphs joined. *)
Lemma parse_cc_read_back_turns_carriage_return :
  fst (parse_cc (serving carriage_return_track) cc_url out_txt None ∅)
  = Ok (Some [[0x61; 0x0D; 0x62]])
  /\ Str.join (py " ") [[0x61; 0x0D; 0x62]] = [0x61; 0x0D; 0x62]
  /\ snd (parse_cc (serving carriage_return_track) cc_url out_txt None ∅)
       !! py "out.txt" = Some [0x61; 0x0D; 0x62]
  /\ read_text (snd (parse_cc (serving carriage_return_track) cc_url out_txt None ∅))
       (py "out.txt") = Ok [0x61; 0x0A; 0x62].
Proof. repeat split. Qed.




(** C10, as the code has it. [parse_cc] returns [None] when [load_data]
    raises its [RuntimeError], which it does on an answer whose status is
    not 200 and on a source that is neither a URL nor an existing file;
    every other failure of the load leaves [parse_cc] as the exception it
    is. When the source loads and its events are none, missing or all
    without text, the pass builds the empty list, a call that returns never
    returns [None] but that empty list, and the call returns when every
    destination can be opened. Data without the key [events], whatever its
    other keys, has no event, as has data whose [events] is the empty list.
    [None] and the empty list are different results. *)
Theorem parse_cc_none_or_empty_list (w : world) (source : pystr)
    (out_file : option path_arg) (output_file : option pystr) (d : disk) :
  (load_data w source = Raise RuntimeError ->
   fst (parse_cc w source out_file output_file d) = Ok None)
  /\ (forall r,
        Str.startswith_any source URL_PREFIXES = true ->
        requests_get w source = Ok r ->
        status_code r <> 200%Z ->
        load_data w source = Raise RuntimeError)
  /\ (Str.startswith_any source URL_PREFIXES = false ->
      path_exists w source = false ->
      load_data w source = Raise RuntimeError)
  /\ (forall e,
        load_data w source = Raise e ->
        e <> RuntimeError ->
        parse_cc w source out_file output_file d = (Raise e, d))
  /\ (forall data events,
        load_data w source = Ok data ->
        events_of data = Ok events ->
        forallb is_break events = true ->
        reconstruct data = Ok []
        /\ (forall r, fst (parse_cc w source out_file output_file d) = Ok r ->
                      r = Some [])
        /\ (Forall (fun path => open_for_writing w path = None)
              (destinations out_file output_file) ->
            fst (parse_cc w source out_file output_file d) = Ok (Some [])))
  /\ (forall items,
        Py.dict_lookup items (py "events") = None ->
        events_of (PyDict items) = Ok [])
  /\ (forall items,
        Py.dict_lookup items (py "events") = Some (PyList []) ->
        events_of (PyDict items) = Ok [])
  /\ @None (list pystr) <> Some [].
Proof.
  split; [|split; [|split; [|split; [|split; [|split; [|split; [|discriminate]]]]]]].
  - intros H. unfold parse_cc. rewrite H. reflexivity.
  - intros r Hurl Hget Hstatus. unfold load_data. rewrite Hurl, Hget. simpl.
    destruct (Z.eqb_spec (status_code r) 200) as [Heq|_]; [contradiction|reflexivity].
  - intros Hurl Hexists. unfold load_data. rewrite Hurl, Hexists. reflexivity.
  - intros e Hload He. unfold parse_cc. rewrite Hload.
    destruct e; try reflexivity. contradiction.
  - intros data events Hload Hev Hbreaks.
    assert (reconstruct data = Ok []) as Hrec
      by exact (reconstruct_events data events init_state Hev (loop_breaks events Hbreaks)).
    split; [exact Hrec|]. split.
    + intros r. apply (parse_cc_result _ _ _ _ _ _ _ _ Hload Hrec).
    + intros Hopen.
      rewrite (parse_cc_loaded _ _ _ _ _ _ _ Hload Hrec), persist_outcome.
      rewrite writes_succeed by (reflexivity || exact Hopen). reflexivity.
  - intros items Hevents. unfold events_of. cbn [Py.get]. rewrite Hevents. reflexivity.
  - intros items Hevents. unfold events_of. cbn [Py.get]. rewrite Hevents. reflexivity.
Qed.

Lemma parse_cc_none_or_empty_list_witness :
  fst (parse_cc unavailable cc_url out_txt None ∅) = Ok None
  /\ fst (parse_cc (serving (track [event [seg "  "]; PyDict []; event []]))
            cc_url out_txt None ∅) = Ok (Some [])
  /\ fst (parse_cc (serving (PyDict [])) cc_url out_txt None ∅) = Ok (Some [])
  /\ fst (parse_cc (serving (PyDict [(py "wireMagic", PyStr (py "pb3"))]))
            cc_url out_txt None ∅) = Ok (Some []).
Proof.
  split; [|split; [|split]].
  - destruct (parse_cc_none_or_empty_list unavailable cc_url out_txt None ∅)
      as (Hnone & Hstatus & _).
    apply Hnone.
    apply (Hstatus {| status_code := 404; json := Raise ValueError |});
      [reflexivity|reflexivity|discriminate].
  - destruct (parse_cc_none_or_empty_list
                (serving (track [event [seg "  "]; PyDict []; event []]))
                cc_url out_txt None ∅) as (_ & _ & _ & _ & Hloaded & _).
    destruct (Hloaded (track [event [seg "  "]; PyDict []; event []])
                [event [seg "  "]; PyDict []; event []] eq_refl eq_refl eq_refl)
      as (_ & _ & Hreturns).
    apply Hreturns. repeat constructor.
  - destruct (parse_cc_none_or_empty_list (serving (PyDict [])) cc_url out_txt None ∅)
      as (_ & _ & _ & _ & Hloaded & Hmissing & _).
    destruct (Hloaded (PyDict []) [] eq_refl (Hmissing [] eq_refl) eq_refl)
      as (_ & _ & Hreturns).
    apply Hreturns. repeat constructor.
  - destruct (parse_cc_none_or_empty_list
                (serving (PyDict [(py "wireMagic", PyStr (py "pb3"))]))
                cc_url out_txt None ∅) as (_ & _ & _ & _ & Hloaded & Hmissing & _).
    destruct (Hloaded (PyDict [(py "wireMagic", PyStr (py "pb3"))]) [] eq_refl
                (Hmissing [(py "wireMagic", PyStr (py "pb3"))] eq_refl) eq_refl)
      as (_ & _ & Hreturns).
    apply Hreturns. repeat constructor.
Defined.

(** C10 as stated fails: a failure to fetch the source does not always
    give [None], and loaded data with no event does not always give the
    empty list. With the network down [requests.get] raises; that is no
    [RuntimeError], and [parse_cc] ends on it. Where the destination cannot
    be opened, a loaded track with no event ends on the error of [open]. *)
Lemma parse_cc_fetch_failure_raises :
  load_data offline cc_url = Raise OSError
  /\ parse_cc offline cc_url out_txt None ∅ = (Raise OSError, ∅)
  /\ load_data (read_only (track [])) cc_url = Ok (track [])
  /\ parse_cc (read_only (track [])) cc_url out_txt None ∅ = (Raise OSError, ∅).
Proof. repeat split; reflexivity. Qed.

(** * Further properties of the code *)

(** ** The further definitions on small inputs *)

Example split_examples :
  StrOps.split (py "a,b,,c,") (py ",") = Ok [py "a"; py "b"; []; py "c"; []]
  /\ StrOps.split (py "aaaa") (py "aa") = Ok [[]; []; []]
  /\ StrOps.split (py "abc") (py "x") = Ok [py "abc"]
  /\ StrOps.split (py "abc") [] = Raise ValueError.
Proof. repeat split. Qed.

Example extract_id_examples :
  extract_id (py "https://www.youtube.com/watch?v=dQw4w9WgXcQ&t=42")
  = Returns (py "dQw4w9WgXcQ")
  /\ extract_id (py "dQw4w9WgXcQ") = Returns (py "dQw4w9WgXcQ")
  /\ extract_id (py "https://youtu.be/abc") = Returns (py "abc")
  /\ extract_id (py "hello") = Raises (Std RuntimeError).
Proof. repeat split. Qed.

Example preprocess_string_example :
  preprocess_string (py " What: a <b>?  ") = py "What a b?".
Proof. reflexivity. Qed.

Example comments_path_examples :
  comments_path (py "abc.info.json") = py "abc.info.comments.json"
  /\ comments_path (py "abc") = py ".comments.json".
Proof. split; reflexivity. Qed.

Example best_thumbnail_takes_the_first_of_equals :
  best_thumbnail (Some [thumbnail "a" 1; thumbnail "b" 3; thumbnail "c" 3])
  = Some (thumbnail "b" 3).
Proof. reflexivity. Qed.

(** ** [parse_cc]: what a call does besides *)

(** X1. Only [RuntimeError] is turned into [None]: any other exception
    of [load_data] (a connection error of [requests], a file that is not
    JSON) leaves [parse_cc] as it is, with no file written. *)
Theorem parse_cc_other_load_errors_propagate (w : world) (source : pystr)
    (out_file : option path_arg) (output_file : option pystr) (d : disk) (e : exn) :
  load_data w source = Raise e ->
  e <> RuntimeError ->
  parse_cc w source out_file output_file d = (Raise e, d).
Proof.
  intros H Hne. unfold parse_cc. rewrite H. destruct e; congruence.
Qed.

Lemma parse_cc_other_load_errors_propagate_witness :
  parse_cc offline cc_url out_txt None ∅ = (Raise OSError, ∅).
Proof.
  apply parse_cc_other_load_errors_propagate; [reflexivity|discriminate].
Defined.

(** X2. The two writes are not one step: when [str(out_file)] has been
    written and the file of [output_file] cannot be opened, the call ends
    on that error and the first file stays on disk with the text. *)
Theorem parse_cc_second_write_failure_keeps_first (w : world) (source : pystr)
    (out_file : option path_arg) (path : pystr) (d : disk) (data : pyval)
    (ps : list pystr) (e : exn) :
  load_data w source = Ok data ->
  reconstruct data = Ok ps ->
  write_error w (Str.join (py " ") ps) (py_str out_file) = None ->
  Str.truthy path = true ->
  open_for_writing w path = Some e ->
  parse_cc w source out_file (Some path) d =
    (Raise e, <[py_str out_file := stored_form (os w) (Str.join (py " ") ps)]> d).
Proof.
  intros Hload Hrec Hfirst Hpath Hopen.
  rewrite (parse_cc_loaded _ _ _ _ _ _ _ Hload Hrec).
  unfold persist, io_bind. rewrite (write_file_done _ _ _ _ Hfirst), Hpath.
  rewrite (write_file_refused _ _ _ _ _ Hopen). reflexivity.
Qed.

Lemma parse_cc_second_write_failure_keeps_first_witness :
  parse_cc (refusing (track [event [seg "Hello"]]) (py "copy.txt")) cc_url out_txt
    (Some (py "copy.txt")) ∅
  = (Raise OSError, <[py "out.txt" := py "Hello"]> ∅).
Proof.
  apply (parse_cc_second_write_failure_keeps_first
           (refusing (track [event [seg "Hello"]]) (py "copy.txt")) cc_url out_txt
           (py "copy.txt") ∅ (track [event [seg "Hello"]]) [py "Hello"] OSError);
    reflexivity.
Defined.

Lemma loop_raises (st : state) (events1 events2 : list pyval) (bad : pyval) (e : exn) :
  forallb wf_event events1 = true ->
  (forall st', step st' bad = Raise e) ->
  forall texts, pass_inv texts st ->
  loop st (events1 ++ bad :: events2) = Raise e.
Proof.
  intros Hwf Hbad texts Hinv.
  destruct (pass_inv_loop events1 texts st Hinv Hwf) as (st1 & Hl & _).
  rewrite loop_app, Hl. simpl. rewrite Hbad. reflexivity.
Qed.

(** X3. One event that is not a dict stops the whole call: after any
    number of well-formed events, [event.get] raises [AttributeError],
    [parse_cc] ends on it, and no file is written, not even for the
    paragraphs built so far. *)
Theorem parse_cc_malformed_event_aborts (w : world) (source : pystr)
    (out_file : option path_arg) (output_file : option pystr) (d : disk)
    (data : pyval) (events1 events2 : list pyval) (bad : pyval) :
  load_data w source = Ok data ->
  events_of data = Ok (events1 ++ bad :: events2) ->
  forallb wf_event events1 = true ->
  (forall items, bad <> PyDict items) ->
  reconstruct data = Raise AttributeError
  /\ parse_cc w source out_file output_file d = (Raise AttributeError, d).
Proof.
  intros Hload Hev Hwf Hbad.
  assert (reconstruct data = Raise AttributeError) as Hrec.
  { unfold reconstruct. rewrite Hev. simpl.
    rewrite (loop_raises init_state events1 events2 bad AttributeError Hwf)
      with (texts := []); [reflexivity| |apply pass_inv_init].
    intros st'. unfold step, event_text.
    destruct bad; try reflexivity. exfalso. eapply Hbad. reflexivity. }
  split; [exact Hrec|]. unfold parse_cc, io_bind, io_lift.
  rewrite Hload, Hrec. reflexivity.
Qed.

Lemma parse_cc_malformed_event_aborts_witness :
  reconstruct (track [event [seg "Hello"]; PyStr (py "World"); event [seg "Bye"]])
  = Raise AttributeError
  /\ parse_cc (serving (track [event [seg "Hello"]; PyStr (py "World"); event [seg "Bye"]]))
       cc_url out_txt None ∅
     = (Raise AttributeError, ∅).
Proof.
  apply (parse_cc_malformed_event_aborts
           (serving (track [event [seg "Hello"]; PyStr (py "World"); event [seg "Bye"]]))
           cc_url out_txt None ∅
           (track [event [seg "Hello"]; PyStr (py "World"); event [seg "Bye"]])
           [event [seg "Hello"]] [event [seg "Bye"]] (PyStr (py "World")));
    try reflexivity.
  discriminate.
Defined.

(** ** The pass: how runs of events compose *)

Lemma step_shift (q ps : list pystr) (buffer : pystr) (e : pyval) :
  step {| paragraphs := q ++ ps; current_paragraph := buffer |} e =
    let* st := step {| paragraphs := ps; current_paragraph := buffer |} e in
    Ok {| paragraphs := q ++ paragraphs st; current_paragraph := current_paragraph st |}.
Proof.
  unfold step, flushed. simpl. destruct (event_text e) as [text|]; [|reflexivity]. simpl.
  destruct (Str.truthy (Str.strip text)); simpl.
  - destruct (is_append e) as [[|]|]; simpl; [reflexivity| |reflexivity].
    destruct (Str.truthy (Str.strip buffer)); simpl; rewrite <- ?app_assoc; reflexivity.
  - destruct (Str.truthy (Str.strip buffer)); simpl; rewrite <- ?app_assoc; reflexivity.
Qed.

Lemma loop_shift (q : list pystr) (events : list pyval) :
  forall (ps : list pystr) (buffer : pystr),
    loop {| paragraphs := q ++ ps; current_paragraph := buffer |} events =
      let* st := loop {| paragraphs := ps; current_paragraph := buffer |} events in
      Ok {| paragraphs := q ++ paragraphs st; current_paragraph := current_paragraph st |}.
Proof.
  induction events as [|e events IH]; intros ps buffer; [reflexivity|].
  simpl. rewrite step_shift.
  destruct (step {| paragraphs := ps; current_paragraph := buffer |} e) as [[ps' b']|];
    [|reflexivity].
  simpl. apply IH.
Qed.

(** X4. A paragraph that has been emitted stays: whatever events follow,
    the loop only adds paragraphs after those it has, and never changes or
    removes one. *)
Theorem loop_keeps_emitted_paragraphs (st st' : state) (events : list pyval) :
  loop st events = Ok st' ->
  exists more, paragraphs st' = paragraphs st ++ more.
Proof.
  destruct st as [ps buffer]. intros H.
  pose proof (loop_shift ps events [] buffer) as Hs.
  rewrite app_nil_r, H in Hs.
  destruct (loop {| paragraphs := []; current_paragraph := buffer |} events) as [st0|];
    [|discriminate].
  simpl in Hs. injection Hs as ->. exists (paragraphs st0). reflexivity.
Qed.

Lemma loop_keeps_emitted_paragraphs_witness :
  exists more,
    [py "Intro"; py "Hello there"] = [py "Intro"] ++ more.
Proof.
  apply (loop_keeps_emitted_paragraphs
           {| paragraphs := [py "Intro"]; current_paragraph := py "Hello" |}
           {| paragraphs := [py "Intro"; py "Hello there"]; current_paragraph := py "Bye" |}
           [append_event [seg "there"]; event [seg "Bye"]]).
  reflexivity.
Defined.

(** X5. A break cuts a track in two: the paragraphs of a track with a
    break event in it are those of the events before the break followed by
    those of the events after it. *)
Theorem reconstruct_splits_at_break (events1 events2 : list pyval) (b : pyval)
    (ps1 ps2 : list pystr) :
  reconstruct (track events1) = Ok ps1 ->
  reconstruct (track events2) = Ok ps2 ->
  is_break b = true ->
  reconstruct (track (events1 ++ b :: events2)) = Ok (ps1 ++ ps2).
Proof.
  unfold reconstruct. change (events_of (track ?evs)) with (@Ok (list pyval) evs).
  simpl bind. intros H1 H2 Hb.
  destruct (loop init_state events1) as [st1|] eqn:Hl1; [|discriminate].
  simpl in H1. injection H1 as <-.
  destruct (loop init_state events2) as [st2|] eqn:Hl2; [|discriminate].
  simpl in H2. injection H2 as <-.
  rewrite loop_app, Hl1. simpl.
  unfold is_break in Hb. destruct (event_text b) as [text|] eqn:Ht; [|discriminate].
  apply negb_true_iff in Hb. rewrite (step_break st1 b text Ht Hb).
  assert ((if Str.truthy (Str.strip (current_paragraph st1))
           then {| paragraphs := paragraphs st1 ++ [Str.strip (current_paragraph st1)];
                   current_paragraph := [] |}
           else st1)
          = {| paragraphs := flushed st1 ++ []; current_paragraph := [] |}) as ->.
  { rewrite app_nil_r. unfold flushed.
    destruct (reachable_buffer st1 (ex_intro _ events1 Hl1)) as [Hempty|Hfull].
    - rewrite Hempty. destruct st1 as [ps buffer]. simpl in *. subst. reflexivity.
    - rewrite Hfull. reflexivity. }
  simpl bind. rewrite loop_shift. fold init_state. rewrite Hl2. simpl.
  unfold flushed. simpl. destruct (Str.truthy (Str.strip (current_paragraph st2)));
    rewrite <- ?app_assoc; reflexivity.
Qed.

Lemma reconstruct_splits_at_break_witness :
  reconstruct (track ([event [seg "Hello"]; append_event [seg "there"]]
                      ++ event [seg "  "]
                      :: [append_event [seg "General"]; event [seg "Kenobi"]]))
  = Ok ([py "Hello there"] ++ [py "General"; py "Kenobi"]).
Proof.
  apply reconstruct_splits_at_break; reflexivity.
Defined.

Lemma step_same_paragraphs (st1 st2 : state) (e : pyval) :
  paragraphs st1 = paragraphs st2 ->
  (current_paragraph st2 = current_paragraph st1
   \/ current_paragraph st2 = py " " ++ current_paragraph st1) ->
  match step st1 e, step st2 e with
  | Ok st1', Ok st2' =>
      paragraphs st1' = paragraphs st2'
      /\ (current_paragraph st2' = current_paragraph st1'
          \/ current_paragraph st2' = py " " ++ current_paragraph st1')
  | Raise e1, Raise e2 => e1 = e2
  | _, _ => False
  end.
Proof.
  intros Hps Hbuf.
  assert (Str.strip (current_paragraph st2) = Str.strip (current_paragraph st1)) as Hstrip.
  { destruct Hbuf as [->| ->]; [reflexivity|].
    change (py " " ++ ?s) with (32 :: s). apply strip_space_cons. reflexivity. }
  unfold step, flushed. destruct (event_text e) as [text|]; [|reflexivity]. simpl.
  rewrite Hstrip, Hps.
  destruct (Str.truthy (Str.strip text)); simpl.
  - destruct (is_append e) as [[|]|]; simpl; [|auto|reflexivity].
    split; [reflexivity|]. destruct Hbuf as [->| ->]; [left|right]; reflexivity.
  - destruct (Str.truthy (Str.strip (current_paragraph st1))); simpl; auto.
Qed.

Lemma loop_same_paragraphs (events : list pyval) :
  forall st1 st2,
    paragraphs st1 = paragraphs st2 ->
    (current_paragraph st2 = current_paragraph st1
     \/ current_paragraph st2 = py " " ++ current_paragraph st1) ->
    same_paragraphs (loop st1 events) (loop st2 events).
Proof.
  induction events as [|e events IH]; intros st1 st2 Hps Hbuf; simpl.
  - unfold flushed. rewrite Hps. destruct Hbuf as [->| ->]; [reflexivity|].
    change (py " " ++ ?s) with (32 :: s).
    rewrite strip_space_cons by reflexivity. reflexivity.
  - pose proof (step_same_paragraphs st1 st2 e Hps Hbuf) as Hstep.
    destruct (step st1 e) as [st1'|e1], (step st2 e) as [st2'|e2]; simpl; try tauto.
    destruct Hstep as [Hps' Hbuf']. apply IH; assumption.
Qed.

(** X6. On an empty buffer the append flag makes no difference: two
    events with the same text, one with [aAppend] equal to 1 and one
    without, followed by the same events, give the same paragraphs (or
    stop on the same exception). So a track may start, or go on after a
    break, with an append event. *)
Theorem append_flag_is_idle_on_empty_buffer (ps : list pystr) (e1 e2 : pyval)
    (text : pystr) (rest : list pyval) :
  event_text e1 = Ok text ->
  event_text e2 = Ok text ->
  is_append e1 = Ok true ->
  is_append e2 = Ok false ->
  same_paragraphs
    (loop {| paragraphs := ps; current_paragraph := [] |} (e2 :: rest))
    (loop {| paragraphs := ps; current_paragraph := [] |} (e1 :: rest)).
Proof.
  intros Ht1 Ht2 Ha1 Ha2. simpl. unfold step, flushed. rewrite Ht1, Ht2. simpl.
  destruct (Str.truthy (Str.strip text)) eqn:Hs; simpl.
  - rewrite Ha1, Ha2. simpl. apply loop_same_paragraphs; [reflexivity|].
    right. reflexivity.
  - apply loop_same_paragraphs; auto.
Qed.

Lemma append_flag_is_idle_on_empty_buffer_witness :
  same_paragraphs
    (loop init_state [event [seg "Hello"]; append_event [seg "there"]; event [seg "Bye"]])
    (loop init_state [append_event [seg "Hello"]; append_event [seg "there"];
                      event [seg "Bye"]]).
Proof.
  apply (append_flag_is_idle_on_empty_buffer [] (append_event [seg "Hello"])
           (event [seg "Hello"]) (py "Hello")); reflexivity.
Defined.

(** ** src/common/util.py: searching and cutting *)

Section StrOpsFacts.

Import StrOps.

Lemma startswith_app (s prefix : pystr) :
  Str.startswith s prefix = true <-> exists rest, s = prefix ++ rest.
Proof.
  revert s. induction prefix as [|p prefix IH]; intros s.
  - destruct s; simpl; split; eauto.
  - destruct s as [|c s]; simpl.
    + split; [discriminate|]. intros [rest H]. discriminate.
    + rewrite andb_true_iff, IH, N.eqb_eq. split.
      * intros [-> [rest ->]]. eauto.
      * intros [rest [= -> ->]]. eauto.
Qed.

Lemma startswith_nil (s : pystr) : Str.startswith s [] = true.
Proof. destruct s; reflexivity. Qed.

Lemma contains_cons (c : N) (s sub : pystr) :
  contains (c :: s) sub = Str.startswith (c :: s) sub || contains s sub.
Proof. reflexivity. Qed.

Lemma find_cons (c : N) (s sub : pystr) :
  find (c :: s) sub =
    if Str.startswith (c :: s) sub then Some 0%nat else S <$> find s sub.
Proof. reflexivity. Qed.

Lemma contains_find (s sub : pystr) :
  contains s sub = true <-> is_Some (find s sub).
Proof.
  induction s as [|c s IH].
  - destruct sub; simpl.
    + split; [intros _; eexists|]; reflexivity.
    + split; [discriminate|]. intros [? ?]. discriminate.
  - rewrite contains_cons, find_cons. destruct (Str.startswith (c :: s) sub); simpl.
    + split; [intros _; eexists|]; reflexivity.
    + rewrite IH, fmap_is_Some. reflexivity.
Qed.

(** An occurrence found at [i] is there, and is the first. *)
Lemma find_Some (s sub : pystr) (i : nat) :
  find s sub = Some i ->
  s = take i s ++ sub ++ drop (i + length sub) s.
Proof.
  revert i. induction s as [|c s IH]; intros i.
  - destruct sub; [|discriminate]. intros [= <-]. reflexivity.
  - rewrite find_cons. destruct (Str.startswith (c :: s) sub) eqn:E.
    + intros [= <-]. apply startswith_app in E as [rest E]. rewrite E.
      rewrite take_0. cbn [Nat.add app]. rewrite drop_app_length. reflexivity.
    + destruct (find s sub) as [j|]; [|discriminate]. simpl. intros [= <-].
      simpl. f_equal. apply IH. reflexivity.
Qed.

Lemma contains_app (s sub : pystr) :
  contains s sub = true <-> exists pre post, s = pre ++ sub ++ post.
Proof.
  split.
  - intros [i Hi]%contains_find. apply find_Some in Hi. eauto.
  - intros (pre & post & ->). induction pre as [|c pre IH].
    + assert (Str.startswith (sub ++ post) sub = true) as E
        by (apply startswith_app; eauto).
      simpl app. destruct (sub ++ post); cbn [contains]; rewrite E; reflexivity.
    + simpl app. rewrite contains_cons, IH. apply orb_true_r.
Qed.

Lemma contains_char (s : pystr) (c : N) : contains s [c] = true <-> c ∈ s.
Proof.
  rewrite contains_app. split.
  - intros (pre & post & ->). set_solver.
  - intros (pre & post & ->)%list_elem_of_split. eauto.
Qed.

(** An occurrence of [sub] in [p ++ s] lies in [p], or reaches into [s]
    with its last character. *)
Lemma contains_across (p s sub : pystr) (last : N) (front : pystr) :
  sub = front ++ [last] ->
  contains (p ++ s) sub = true ->
  contains p sub = true \/ last ∈ s.
Proof.
  intros -> (pre & post & H)%contains_app.
  rewrite app_assoc in H.
  apply app_eq_inv in H as [(k & -> & _)|(k & Hk & ->)].
  - left. apply contains_app. exists pre, k. rewrite <- app_assoc. reflexivity.
  - destruct k as [|x k _] using rev_ind.
    + left. apply contains_app. exists pre, []. rewrite !app_nil_r in *. auto.
    + right. rewrite !app_assoc in Hk. apply app_inj_tail in Hk as [_ ->].
      set_solver.
Qed.

Lemma split_from_head (fuel : nat) (s sep : pystr) :
  exists piece pieces,
    split_from fuel s sep = piece :: pieces
    /\ exists k, piece = take k s
       /\ (piece = s \/ exists rest, s = piece ++ sep ++ rest).
Proof.
  destruct fuel as [|fuel]; simpl.
  - exists s, []. split; [reflexivity|]. exists (length s).
    rewrite firstn_all. auto.
  - destruct (find s sep) as [i|] eqn:Hf.
    + eexists _, _. split; [reflexivity|]. exists i. split; [reflexivity|].
      right. eexists. apply find_Some, Hf.
    + exists s, []. split; [reflexivity|]. exists (length s).
      rewrite firstn_all. auto.
Qed.

End StrOpsFacts.

(** ** src/common/util.py: [extract_id] and [is_youtube_url] *)

Section ExtractIdFacts.

Import StrOps.

Lemma find_Some_length (s sub : pystr) (i : nat) :
  find s sub = Some i -> length (take i s) = i.
Proof.
  revert i. induction s as [|c s IH]; intros i.
  - destruct sub; [|discriminate]. intros [= <-]. reflexivity.
  - rewrite find_cons. destruct (Str.startswith (c :: s) sub).
    + intros [= <-]. reflexivity.
    + destruct (find s sub) as [j|]; [|discriminate]. simpl. intros [= <-].
      simpl. f_equal. apply IH. reflexivity.
Qed.

(** What the loop of [extract_id] returns: the text after the first
    occurrence of the first segment the URL has, cut at eleven characters,
    at the next occurrence of the segment or at the end. *)
Lemma extract_id_from_spec (url : pystr) (segments : list pystr) :
  Forall (fun segment => segment <> []) segments ->
  match extract_id_from url segments with
  | Returns video_id =>
      exists segment pre post,
        segment ∈ segments
        /\ url = pre ++ segment ++ video_id ++ post
        /\ find url segment = Some (length pre)
        /\ (length video_id <= 11)%nat
        /\ (length video_id = 11%nat \/ post = [] \/ Str.startswith post segment = true)
  | Raises r => r = Std RuntimeError /\ existsb (contains url) segments = false
  end.
Proof.
  induction 1 as [|segment segments Hne _ IH]; simpl; [auto|].
  destruct (contains url segment) eqn:Hc; simpl.
  - clear IH. pose proof Hc as [i Hi]%contains_find.
    pose proof (find_Some url segment i Hi) as Hurl.
    pose proof (find_Some_length url segment i Hi) as Hlen.
    unfold split. destruct segment as [|c segment]; [congruence|].
    set (sep := c :: segment) in *. simpl of_result. simpl outcome_bind.
    destruct (length url) as [|fuel] eqn:Hfuel.
    { apply nil_length_inv in Hfuel. subst url. discriminate. }
    cbn [split_from]. rewrite Hi.
    destruct (split_from_head fuel (drop (i + length sep) url) sep)
      as (piece & pieces & -> & k & Hk & Hpiece).
    unfold item. simpl lookup. simpl outcome_bind.
    set (rest := drop (i + length sep) url) in *.
    assert (exists tail, rest = piece ++ tail
                         /\ (tail = [] \/ Str.startswith tail sep = true))
      as (tail & Hrest & Htail).
    { destruct Hpiece as [->|[rest' ->]].
      - exists []. rewrite app_nil_r. auto.
      - exists (sep ++ rest'). split; [reflexivity|]. right.
        apply startswith_app. eauto. }
    exists sep, (take i url), (drop ID_LENGTH piece ++ tail).
    split; [left|]. split; [|split; [|split]].
    + rewrite Hurl at 1. rewrite Hrest. f_equal. f_equal.
      rewrite app_assoc, take_drop. reflexivity.
    + rewrite Hlen. exact Hi.
    + rewrite length_take. unfold ID_LENGTH. lia.
    + destruct (decide (length piece <= ID_LENGTH)%nat) as [Hle|Hgt].
      * right. rewrite drop_ge by exact Hle. simpl. exact Htail.
      * left. rewrite length_take. unfold ID_LENGTH in *. lia.
  - destruct (extract_id_from url segments) as [video_id|r].
    + destruct IH as (s & pre & post & Hs & IH). exists s, pre, post.
      split; [right; exact Hs|exact IH].
    + exact IH.
Qed.

Lemma youtube_segments_nonempty :
  Forall (fun segment : pystr => segment <> []) youtube_segments.
Proof. repeat constructor; discriminate. Qed.

(** X7. [extract_id] returns an id of at most eleven characters when
    the input passes the test of a bare id or [is_youtube_url]; otherwise,
    and only then, it raises [RuntimeError]. Its subscript [[1]] never
    raises [IndexError]. *)
Theorem extract_id_outcome (url : pystr) :
  match extract_id url with
  | Returns video_id =>
      (length video_id <= 11)%nat
      /\ (is_display_id url = true \/ is_youtube_url url = true)
  | Raises r =>
      r = Std RuntimeError
      /\ is_display_id url = false /\ is_youtube_url url = false
  end.
Proof.
  unfold extract_id. destruct (is_display_id url) eqn:Hid.
  - split; [|auto]. unfold is_display_id in Hid.
    apply andb_true_iff in Hid as [[[Hlen%Nat.eqb_eq _]%andb_true_iff _]%andb_true_iff _].
    lia.
  - pose proof (extract_id_from_spec url youtube_segments youtube_segments_nonempty) as H.
    destruct (extract_id_from url youtube_segments) as [video_id|r].
    + destruct H as (segment & pre & post & Hseg & Hurl & _ & Hlen & _).
      split; [exact Hlen|]. right. unfold is_youtube_url. apply existsb_exists.
      exists segment. split; [apply list_elem_of_In, Hseg|].
      apply contains_app. eauto.
    + destruct H as [-> H]. auto.
Qed.

(** X8. For an input that is not a bare id, the id [extract_id] returns
    stands in the URL right after the first occurrence of one of the three
    segments, and ends after eleven characters, at the end of the URL, or
    where the segment occurs again. *)
Theorem extract_id_follows_segment (url video_id : pystr) :
  extract_id url = Returns video_id ->
  is_display_id url = false ->
  exists segment pre post,
    segment ∈ youtube_segments
    /\ url = pre ++ segment ++ video_id ++ post
    /\ StrOps.find url segment = Some (length pre)
    /\ (length video_id = 11%nat \/ post = [] \/ Str.startswith post segment = true).
Proof.
  unfold extract_id. intros H Hid. rewrite Hid in H.
  pose proof (extract_id_from_spec url youtube_segments youtube_segments_nonempty) as Hs.
  rewrite H in Hs. destruct Hs as (segment & pre & post & ? & ? & ? & _ & ?).
  eauto 10.
Qed.

Lemma extract_id_follows_segment_witness :
  exists segment pre post,
    segment ∈ youtube_segments
    /\ py "https://youtu.be/dQw4w9WgXcQ?t=42" = pre ++ segment ++ py "dQw4w9WgXcQ" ++ post
    /\ StrOps.find (py "https://youtu.be/dQw4w9WgXcQ?t=42") segment = Some (length pre)
    /\ (length (py "dQw4w9WgXcQ") = 11%nat \/ post = []
        \/ Str.startswith post segment = true).
Proof.
  apply (extract_id_follows_segment (py "https://youtu.be/dQw4w9WgXcQ?t=42")
           (py "dQw4w9WgXcQ")); reflexivity.
Defined.

Lemma find_None_char (s sub front : pystr) (last : N) :
  sub = front ++ [last] -> last ∉ s -> find s sub = None.
Proof.
  intros -> Hlast. destruct (find s (front ++ [last])) as [i|] eqn:Hf; [|reflexivity].
  exfalso. apply Hlast. apply find_Some in Hf. rewrite Hf. set_solver.
Qed.

(** X9. The URL built from a bare id gives the id back: for an id that
    passes the first test of [extract_id], [extract_id] of
    [https://www.youtube.com/watch?v=] followed by the id is the id. *)
Theorem extract_id_of_watch_url (video_id : pystr) :
  is_display_id video_id = true ->
  extract_id (watch_url video_id) = Returns video_id
  /\ is_youtube_url (watch_url video_id) = true.
Proof.
  unfold is_display_id. rewrite !andb_true_iff, !negb_true_iff, Nat.eqb_eq.
  intros [[[Hlen _] Heq] Hslash].
  assert (0x3D ∉ video_id) as Hno_eq.
  { intros Hin%contains_char. change [0x3D] with (py "=") in Hin. congruence. }
  assert (0x2F ∉ video_id) as Hno_slash.
  { intros Hin%contains_char. change [0x2F] with (py "/") in Hin. congruence. }
  assert (forall segment front,
            segment = front ++ [0x2F] ->
            contains (py "https://www.youtube.com/watch?v=") segment = false ->
            contains (watch_url video_id) segment = false) as Hother.
  { intros segment front Hfront Hprefix.
    destruct (contains (watch_url video_id) segment) eqn:Hc; [|reflexivity].
    exfalso. unfold watch_url in Hc.
    apply (contains_across _ _ _ 0x2F front Hfront) in Hc as [Hc|Hc];
      [congruence|contradiction]. }
  assert (contains (watch_url video_id) (py "youtube.com/watch?v=") = true) as Hthird.
  { apply contains_app. exists (py "https://www."), video_id. reflexivity. }
  split.
  - unfold extract_id.
    replace (is_display_id (watch_url video_id)) with false.
    2:{ unfold is_display_id, watch_url. rewrite length_app, Hlen. reflexivity. }
    unfold youtube_segments, extract_id_from.
    rewrite (Hother (py "youtu.be/") (py "youtu.be") eq_refl eq_refl).
    rewrite (Hother (py "youtube.com/shorts/") (py "youtube.com/shorts") eq_refl eq_refl).
    rewrite Hthird. unfold split.
    change (py "youtube.com/watch?v=") with (0x79 :: py "outube.com/watch?v=").
    cbv beta iota. change (0x79 :: py "outube.com/watch?v=") with (py "youtube.com/watch?v=").
    assert (length (watch_url video_id) = S (S (30 + length video_id))) as ->
      by (unfold watch_url; rewrite length_app; reflexivity).
    assert (find (watch_url video_id) (py "youtube.com/watch?v=") = Some 12%nat) as Hfind.
    { unfold watch_url.
      let p := eval vm_compute in (py "https://www.youtube.com/watch?v=") in
      change (py "https://www.youtube.com/watch?v=") with p.
      let p := eval vm_compute in (py "youtube.com/watch?v=") in
      change (py "youtube.com/watch?v=") with p.
      cbn. rewrite startswith_nil. reflexivity. }
    cbn [split_from]. rewrite Hfind.
    change (drop (12 + length (py "youtube.com/watch?v=")) (watch_url video_id))
      with video_id.
    rewrite (find_None_char video_id (py "youtube.com/watch?v=")
               (py "youtube.com/watch?v") 0x3D eq_refl Hno_eq).
    simpl. rewrite take_ge by (unfold ID_LENGTH; lia). reflexivity.
  - unfold is_youtube_url, youtube_segments. cbn [existsb]. rewrite Hthird.
    rewrite !orb_true_r. reflexivity.
Qed.

Lemma extract_id_of_watch_url_witness :
  extract_id (py "https://www.youtube.com/watch?v=dQw4w9WgXcQ") = Returns (py "dQw4w9WgXcQ")
  /\ is_youtube_url (py "https://www.youtube.com/watch?v=dQw4w9WgXcQ") = true.
Proof.
  apply (extract_id_of_watch_url (py "dQw4w9WgXcQ")). reflexivity.
Defined.

End ExtractIdFacts.

(** ** src/common/util.py: cleaning strings *)

Section CleaningFacts.

Import StrOps.

Lemma delete_chars_elem (chars s : pystr) (c : N) :
  c ∈ delete_chars chars s <-> c ∈ s /\ c ∉ chars.
Proof. unfold delete_chars. rewrite list_elem_of_filter. tauto. Qed.

(** The set of characters to delete is never empty, so the branch that
    returns [s] untouched is never taken. *)
Lemma illegal_chars_always (s : pystr) (to_remove : option pystr) :
  remove_illegal_chars s to_remove
  = filter (fun c => c ∉ (default [] to_remove ++ illegal_chars)) s.
Proof.
  unfold remove_illegal_chars.
  destruct to_remove as [more|]; cbn [default app].
  - replace (0 <? length (more ++ illegal_chars))%nat with true; [reflexivity|].
    symmetry. apply Nat.ltb_lt. rewrite length_app.
    change (length illegal_chars) with 9%nat. lia.
  - reflexivity.
Qed.

(** X10. [remove_illegal_chars] keeps, in their order, exactly the
    characters of [s] that are neither in [illegal_chars] nor in
    [to_remove]: none of the nine illegal characters is left, a second
    pass changes nothing; the question mark is not among the illegal
    characters, so it stays. *)
Theorem remove_illegal_chars_spec (s : pystr) (to_remove : option pystr) :
  remove_illegal_chars s to_remove
  = filter (fun c => c ∉ (default [] to_remove ++ illegal_chars)) s
  /\ (forall c, (c ∈ remove_illegal_chars s to_remove) <->
                c ∈ s /\ (c ∉ illegal_chars) /\ (c ∉ default [] to_remove))
  /\ remove_illegal_chars (remove_illegal_chars s to_remove) to_remove
     = remove_illegal_chars s to_remove
  /\ (0x3F ∉ illegal_chars).
Proof.
  assert (remove_illegal_chars s to_remove
          = filter (fun c => c ∉ (default [] to_remove ++ illegal_chars)) s) as Hdef.
  { apply illegal_chars_always. }
  assert (forall t, remove_illegal_chars t to_remove
          = filter (fun c => c ∉ (default [] to_remove ++ illegal_chars)) t) as Hgen.
  { intros t. apply illegal_chars_always. }
  split; [exact Hdef|]. split; [|split].
  - intros c. rewrite Hdef, list_elem_of_filter, not_elem_of_app. tauto.
  - rewrite !Hgen. rewrite list_filter_filter. apply list_filter_iff. tauto.
  - intros Hin. apply list_elem_of_In in Hin. vm_compute in Hin.
    intuition discriminate.
Qed.

(** X11. The character class of [emoji_pattern] is three intervals:
    U+24C2 to U+1F251, U+1F300 to U+1F64F and U+1F680 to U+1FAFF. It holds
    more than emoji: every CJK ideograph from U+4E00 to U+9FFF is in it. *)
Theorem emoji_class_intervals (c : N) :
  (in_emoji_class c = true <->
     (0x24C2 <= c <= 0x1F251) \/ (0x1F300 <= c <= 0x1F64F)
     \/ (0x1F680 <= c <= 0x1FAFF))
  /\ (0x4E00 <= c <= 0x9FFF -> in_emoji_class c = true).
Proof.
  assert (in_emoji_class c = true <->
            (0x24C2 <= c <= 0x1F251) \/ (0x1F300 <= c <= 0x1F64F)
            \/ (0x1F680 <= c <= 0x1FAFF)) as H.
  { unfold in_emoji_class, emoji_ranges. cbn [existsb fst snd].
    rewrite !orb_true_iff, !andb_true_iff, !N.leb_le. lia. }
  split; [exact H|]. intros Hc. apply H. lia.
Qed.

Lemma emoji_class_intervals_witness :
  in_emoji_class 0x4E2D = true /\ in_emoji_class 0x1F600 = true.
Proof.
  split.
  - apply (proj2 (emoji_class_intervals 0x4E2D)). lia.
  - apply (proj2 (proj1 (emoji_class_intervals 0x1F600))). lia.
Defined.

Lemma strip_elem (s : pystr) (c : N) : c ∈ Str.strip s -> c ∈ s.
Proof.
  destruct (blank_or_core s) as [Hb|(a & m & b & -> & Ha & Hb & Hm)].
  - rewrite strip_blank by exact Hb. intros Hin. inversion Hin.
  - rewrite strip_sandwich by assumption. set_solver.
Qed.

(** X12. What [remove_emoji] returns has no character of the class, no
    white space at either end, and only characters of the input; applied
    again it returns the same string. *)
Theorem remove_emoji_spec (text : pystr) :
  Forall (fun c => in_emoji_class c = false /\ c ∈ text) (remove_emoji text)
  /\ Str.strip (remove_emoji text) = remove_emoji text
  /\ remove_emoji (remove_emoji text) = remove_emoji text.
Proof.
  assert (Forall (fun c => in_emoji_class c = false /\ c ∈ text) (remove_emoji text))
    as Hall.
  { apply Forall_forall. intros c Hc. unfold remove_emoji in Hc. apply strip_elem, list_elem_of_filter in Hc.
    exact Hc. }
  split; [exact Hall|]. split.
  - apply strip_idempotent.
  - unfold remove_emoji at 1.
    assert (filter (fun c => in_emoji_class c = false) (remove_emoji text)
            = remove_emoji text) as ->.
    { clear -Hall. induction Hall as [|c s [Hc _] _ IH]; [reflexivity|].
      rewrite filter_cons_True by exact Hc. rewrite IH. reflexivity. }
    apply strip_idempotent.
Qed.

Lemma replace_char_elem (old new : N) (s : pystr) (c : N) :
  c ∈ replace_char old new s -> c = new \/ (c ∈ s /\ c <> old).
Proof.
  unfold replace_char. intros (x & -> & Hx)%list_elem_of_fmap.
  destruct (N.eqb_spec x old); auto.
Qed.

(** X13. No character of the string [preprocess_string] returns is a
    line feed, a carriage return or a tab, one of the nine illegal
    characters, or in the class of [emoji_pattern]. *)
Theorem preprocess_string_is_clean (s : pystr) :
  Forall
    (fun c =>
       c <> 0x0A /\ c <> 0x0D /\ c <> 0x09
       /\ (c ∉ illegal_chars) /\ in_emoji_class c = false)
    (preprocess_string s).
Proof.
  apply Forall_forall. intros c Hc. unfold preprocess_string in Hc.
  apply (remove_illegal_chars_spec _ None) in Hc as (Hc & Hillegal & _).
  apply replace_char_elem in Hc as [->|[Hc Htab]].
  { repeat split; first [discriminate | exact Hillegal]. }
  apply replace_char_elem in Hc as [->|[Hc Hcr]].
  { repeat split; first [discriminate | exact Hillegal]. }
  apply replace_char_elem in Hc as [->|[Hc Hlf]].
  { repeat split; first [discriminate | exact Hillegal]. }
  pose proof (remove_emoji_spec s) as [Hall _].
  rewrite Forall_forall in Hall. apply Hall in Hc as [Hemoji _].
  auto.
Qed.

End CleaningFacts.

(** ** src/common/cc_parser.py: [CC_EXT] and [extract_cc_url] *)

(** X14. The names of [CC_EXT.__str__] and the members agree: for every
    member, [str] never fails on the subscript, and the upper case of the
    string it gives is the name under which [getattr(CC_EXT, ...)] finds
    that same member, the way [process_url] looks a [cc_ext] up. *)
Theorem CC_EXT_str_names_the_member (e : CC_EXT) :
  exists name upper_name,
    CC_EXT_str e = Returns name
    /\ ascii_upper name = Some upper_name
    /\ CC_EXT_getattr upper_name = Ok e.
Proof.
  destruct e; do 2 eexists;
    (split; [reflexivity|split; [vm_compute; reflexivity|vm_compute; reflexivity]]).
Qed.

Section ExtractCcUrlFacts.

Variable w : world.
Variables json_file language : pystr.

Lemma extract_cc_url_entries (cc_ext : option cc_ext_arg) (name : pystr)
    (data captions : pyval) (entries : list pyval) :
  load_data w json_file = Ok data ->
  getitem data (py "automatic_captions") = Returns captions ->
  getitem captions language = Returns (PyList entries) ->
  cc_ext_str cc_ext = Returns name ->
  extract_cc_url w json_file language cc_ext =
    match first_url cc_ext name entries with
    | Some r => r
    | None => no_ext_found entries
    end.
Proof.
  intros Hload Hcaptions Hentries Hname. unfold extract_cc_url.
  rewrite Hload. simpl. rewrite Hcaptions. simpl. rewrite Hentries. simpl.
  rewrite Hname. reflexivity.
Qed.

Lemma first_url_Some (cc_ext : option cc_ext_arg) (name : pystr)
    (entries : list pyval) (url : pyval) :
  first_url cc_ext name entries = Some (Returns url) ->
  exists before entry after,
    entries = before ++ entry :: after
    /\ Forall (fun e => ext_matches cc_ext name e = Returns false) before
    /\ ext_matches cc_ext name entry = Returns true
    /\ getitem entry (py "url") = Returns url.
Proof.
  induction entries as [|entry entries IH]; simpl; [discriminate|].
  destruct (ext_matches cc_ext name entry) as [[|]|r] eqn:Hm.
  - intros [= Hurl]. exists [], entry, entries. auto.
  - intros (before & e & after & -> & Hbefore & He & Hurl)%IH.
    exists (entry :: before), e, after. auto.
  - discriminate.
Qed.

(** X15. With a [cc_ext], what [extract_cc_url] returns is the ["url"]
    of the first entry of the language whose ["ext"] equals
    [str(cc_ext)]: every entry before it has another ["ext"]. *)
Theorem extract_cc_url_first_match (cc_ext : cc_ext_arg) (name : pystr)
    (data captions : pyval) (entries : list pyval) (url : pyval) :
  load_data w json_file = Ok data ->
  getitem data (py "automatic_captions") = Returns captions ->
  getitem captions language = Returns (PyList entries) ->
  cc_ext_str (Some cc_ext) = Returns name ->
  extract_cc_url w json_file language (Some cc_ext) = Returns url ->
  exists before entry after,
    entries = before ++ entry :: after
    /\ Forall (fun e => ext_matches (Some cc_ext) name e = Returns false) before
    /\ ext_matches (Some cc_ext) name entry = Returns true
    /\ getitem entry (py "url") = Returns url.
Proof.
  intros Hload Hcaptions Hentries Hname.
  rewrite (extract_cc_url_entries _ name data captions entries) by assumption.
  destruct (first_url (Some cc_ext) name entries) as [r|] eqn:Hfirst.
  - intros ->. apply first_url_Some, Hfirst.
  - unfold no_ext_found.
    destruct (mapM _ entries) as [exts|]; simpl; [|discriminate].
    destruct (Py.join (py " ") exts); discriminate.
Qed.

(** X16. Without a [cc_ext] the first entry of the language is taken,
    whatever its ["ext"]: the call gives what [entry["url"]] gives, a
    [KeyError] included, and raises [RuntimeError] when the language has
    no entry. *)
Theorem extract_cc_url_without_ext (data captions : pyval) (entries : list pyval) :
  load_data w json_file = Ok data ->
  getitem data (py "automatic_captions") = Returns captions ->
  getitem captions language = Returns (PyList entries) ->
  extract_cc_url w json_file language None =
    match entries with
    | entry :: _ => getitem entry (py "url")
    | [] => Raises (Std RuntimeError)
    end.
Proof.
  intros Hload Hcaptions Hentries.
  rewrite (extract_cc_url_entries None (py "None") data captions entries)
    by (assumption || reflexivity).
  destruct entries; reflexivity.
Qed.

(** X17. A file without ["automatic_captions"], or whose captions lack
    the language, makes [extract_cc_url] raise [RuntimeError], the error
    [process_url] catches. *)
Theorem extract_cc_url_missing_key (cc_ext : option cc_ext_arg)
    (items : list (pystr * pyval)) :
  load_data w json_file = Ok (PyDict items) ->
  (Py.dict_lookup items (py "automatic_captions") = None
   \/ exists captions,
        Py.dict_lookup items (py "automatic_captions") = Some (PyDict captions)
        /\ Py.dict_lookup captions language = None) ->
  extract_cc_url w json_file language cc_ext = Raises (Std RuntimeError).
Proof.
  intros Hload H. unfold extract_cc_url. rewrite Hload. simpl.
  destruct H as [->|(captions & -> & Hlang)]; [reflexivity|].
  simpl. rewrite Hlang. reflexivity.
Qed.

Lemma mapM_get_ext (cc_ext : cc_ext_arg) (name : pystr) (entries : list pyval) :
  Forall (fun e => ext_matches (Some cc_ext) name e = Returns false) entries ->
  exists exts,
    mapM (fun k => Py.get k (py "ext") PyNone) entries = Ok exts
    /\ Forall2 (fun e v => Py.get e (py "ext") PyNone = Ok v) entries exts.
Proof.
  induction 1 as [|e entries He _ (exts & IH & Hall)]; simpl.
  - exists []. auto.
  - unfold ext_matches in He.
    destruct (Py.get e (py "ext") PyNone) as [v|] eqn:Hv; [|discriminate].
    rewrite IH. simpl. exists (v :: exts). auto.
Qed.

Lemma join_all_str (sep : pystr) (vs : list pyval) :
  Py.join sep vs =
    if forallb (fun v => match v with PyStr _ => true | _ => false end) vs
    then Py.join sep vs else Raise TypeError.
Proof.
  destruct (forallb _ vs) eqn:Hall; [reflexivity|]. unfold Py.join.
  assert (mapM Py.as_str vs = Raise TypeError) as ->; [|reflexivity].
  induction vs as [|v vs IH]; [discriminate|]. simpl in *.
  destruct v; try reflexivity. simpl in Hall. rewrite (IH Hall). reflexivity.
Qed.

Lemma join_str_ok (sep : pystr) (vs : list pyval) :
  forallb (fun v => match v with PyStr _ => true | _ => false end) vs = true ->
  exists s, Py.join sep vs = Ok s.
Proof.
  unfold Py.join. intros Hall.
  assert (exists strs, mapM Py.as_str vs = Ok strs) as [strs ->]; [|simpl; eauto].
  induction vs as [|v vs IH]; simpl; [eauto|].
  simpl in Hall. apply andb_true_iff in Hall as [Hv Hall].
  destruct v; try discriminate. destruct (IH Hall) as [strs ->]. simpl. eauto.
Qed.

(** X18. When no entry has the wanted ["ext"], [extract_cc_url] raises
    [RuntimeError] only if the ["ext"] of every entry is a string; an
    entry without ["ext"], or with one that is not a string, makes the
    message fail and the call raises [TypeError], which [process_url]
    does not catch. *)
Theorem extract_cc_url_no_match (cc_ext : cc_ext_arg) (name : pystr)
    (data captions : pyval) (entries : list pyval) :
  load_data w json_file = Ok data ->
  getitem data (py "automatic_captions") = Returns captions ->
  getitem captions language = Returns (PyList entries) ->
  cc_ext_str (Some cc_ext) = Returns name ->
  Forall (fun e => ext_matches (Some cc_ext) name e = Returns false) entries ->
  extract_cc_url w json_file language (Some cc_ext) =
    if forallb has_str_ext entries
    then Raises (Std RuntimeError) else Raises (Std TypeError).
Proof.
  intros Hload Hcaptions Hentries Hname Hnone.
  rewrite (extract_cc_url_entries _ name data captions entries) by assumption.
  clear Hload Hcaptions.
  assert (first_url (Some cc_ext) name entries = None) as ->.
  { clear Hentries. induction Hnone as [|e es He _ IH]; cbn [first_url]; [reflexivity|].
    rewrite He. exact IH. }
  unfold no_ext_found.
  destruct (mapM_get_ext cc_ext name entries Hnone) as (exts & -> & Hexts).
  simpl.
  assert (forallb has_str_ext entries
          = forallb (fun v => match v with PyStr _ => true | _ => false end) exts) as ->.
  { clear Hentries Hnone. induction Hexts as [|e v es vs Hv _ IH]; simpl; [reflexivity|].
    unfold has_str_ext at 1. rewrite Hv, IH. reflexivity. }
  rewrite join_all_str.
  destruct (forallb _ exts) eqn:Hall; [|reflexivity].
  destruct (join_str_ok (py " ") exts Hall) as [s ->]. reflexivity.
Qed.

End ExtractCcUrlFacts.

Lemma extract_cc_url_first_match_witness :
  exists before entry after,
    [caption "vtt" "u1"; caption "json3" "u2"; caption "json3" "u3"]
    = before ++ entry :: after
    /\ Forall (fun e => ext_matches (Some (ExtMember JSON3)) (py "json3") e
                        = Returns false) before
    /\ ext_matches (Some (ExtMember JSON3)) (py "json3") entry = Returns true
    /\ getitem entry (py "url") = Returns (PyStr (py "u2")).
Proof.
  apply (extract_cc_url_first_match
           (serving (info_json "en"
                       [caption "vtt" "u1"; caption "json3" "u2"; caption "json3" "u3"]))
           cc_url (py "en") (ExtMember JSON3) (py "json3")
           (info_json "en"
              [caption "vtt" "u1"; caption "json3" "u2"; caption "json3" "u3"])
           (PyDict [(py "en", PyList [caption "vtt" "u1"; caption "json3" "u2";
                                      caption "json3" "u3"])]));
    reflexivity.
Defined.

Lemma extract_cc_url_without_ext_witness :
  extract_cc_url (serving (info_json "en" [caption "vtt" "u1"; caption "json3" "u2"]))
    cc_url (py "en") None = Returns (PyStr (py "u1"))
  /\ extract_cc_url (serving (info_json "en" [PyDict []])) cc_url (py "en") None
     = Raises KeyError
  /\ extract_cc_url (serving (info_json "en" [])) cc_url (py "en") None
     = Raises (Std RuntimeError).
Proof.
  split; [|split].
  - apply (extract_cc_url_without_ext
             (serving (info_json "en" [caption "vtt" "u1"; caption "json3" "u2"]))
             cc_url (py "en")
             (info_json "en" [caption "vtt" "u1"; caption "json3" "u2"])
             (PyDict [(py "en", PyList [caption "vtt" "u1"; caption "json3" "u2"])])
             [caption "vtt" "u1"; caption "json3" "u2"]); reflexivity.
  - apply (extract_cc_url_without_ext (serving (info_json "en" [PyDict []]))
             cc_url (py "en") (info_json "en" [PyDict []])
             (PyDict [(py "en", PyList [PyDict []])]) [PyDict []]); reflexivity.
  - apply (extract_cc_url_without_ext (serving (info_json "en" []))
             cc_url (py "en") (info_json "en" [])
             (PyDict [(py "en", PyList [])]) []); reflexivity.
Defined.

Lemma extract_cc_url_missing_key_witness :
  extract_cc_url (serving (PyDict [(py "title", PyStr (py "t"))])) cc_url (py "en") None
  = Raises (Std RuntimeError)
  /\ extract_cc_url (serving (info_json "en" [caption "vtt" "u1"])) cc_url (py "nl")
       (Some (ExtMember VTT))
     = Raises (Std RuntimeError).
Proof.
  split.
  - apply (extract_cc_url_missing_key
             (serving (PyDict [(py "title", PyStr (py "t"))])) cc_url (py "en") None
             [(py "title", PyStr (py "t"))]); [reflexivity|].
    left. reflexivity.
  - apply (extract_cc_url_missing_key
             (serving (info_json "en" [caption "vtt" "u1"])) cc_url (py "nl")
             (Some (ExtMember VTT))
             [(py "automatic_captions", PyDict [(py "en", PyList [caption "vtt" "u1"])])]);
      [reflexivity|].
    right. eexists. split; reflexivity.
Defined.

Lemma extract_cc_url_no_match_witness :
  extract_cc_url (serving (info_json "en" [caption "vtt" "u1"; caption "srv1" "u2"]))
    cc_url (py "en") (Some (ExtMember JSON3)) = Raises (Std RuntimeError)
  /\ extract_cc_url
       (serving (info_json "en" [caption "vtt" "u1"; PyDict [(py "url", PyStr (py "u2"))]]))
       cc_url (py "en") (Some (ExtMember JSON3)) = Raises (Std TypeError).
Proof.
  split.
  - apply (extract_cc_url_no_match
             (serving (info_json "en" [caption "vtt" "u1"; caption "srv1" "u2"]))
             cc_url (py "en") (ExtMember JSON3) (py "json3")
             (info_json "en" [caption "vtt" "u1"; caption "srv1" "u2"])
             (PyDict [(py "en", PyList [caption "vtt" "u1"; caption "srv1" "u2"])])
             [caption "vtt" "u1"; caption "srv1" "u2"]); try reflexivity.
    repeat constructor.
  - apply (extract_cc_url_no_match
             (serving (info_json "en"
                         [caption "vtt" "u1"; PyDict [(py "url", PyStr (py "u2"))]]))
             cc_url (py "en") (ExtMember JSON3) (py "json3")
             (info_json "en" [caption "vtt" "u1"; PyDict [(py "url", PyStr (py "u2"))]])
             (PyDict [(py "en", PyList [caption "vtt" "u1";
                                        PyDict [(py "url", PyStr (py "u2"))]])])
             [caption "vtt" "u1"; PyDict [(py "url", PyStr (py "u2"))]]);
      try reflexivity.
    repeat constructor.
Defined.

(** ** src/common/youtube_info.py: thumbnails and formats *)

Lemma max_by_spec {A : Type} (key : A -> Z) (rest : list A) :
  forall (seen : list A) (best : A) (after : list A),
    Forall (fun x => (key x < key best)%Z) seen ->
    Forall (fun x => (key x <= key best)%Z) after ->
    exists before result after',
      seen ++ best :: after ++ rest = before ++ result :: after'
      /\ max_by key best rest = result
      /\ Forall (fun x => (key x < key result)%Z) before
      /\ Forall (fun x => (key x <= key result)%Z) after'.
Proof.
  induction rest as [|x rest IH]; intros seen best after Hseen Hafter.
  - exists seen, best, after. rewrite app_nil_r. auto.
  - unfold max_by. simpl. destruct (Z.ltb_spec (key best) (key x)) as [Hlt|Hge].
    + destruct (IH (seen ++ best :: after) x []) as (b & r & a & Heq & Hmax & Hb & Ha).
      * apply Forall_app. split.
        -- eapply Forall_impl; [exact Hseen|]. simpl. intros; lia.
        -- constructor; [exact Hlt|].
           eapply Forall_impl; [exact Hafter|]. simpl. intros; lia.
      * constructor.
      * exists b, r, a. split; [|auto].
        rewrite <- Heq. rewrite <- !app_assoc. reflexivity.
    + destruct (IH seen best (after ++ [x])) as (b & r & a & Heq & Hmax & Hb & Ha).
      * exact Hseen.
      * apply Forall_app. split; [exact Hafter|]. constructor; [lia|constructor].
      * exists b, r, a. split; [|auto].
        rewrite <- Heq. rewrite <- !app_assoc. reflexivity.
Qed.

(** X19. [best_thumbnail] returns [None] exactly when there is no
    thumbnail; otherwise it returns one of the thumbnails, no thumbnail
    has a higher preference, and among those of the highest preference it
    is the first. *)
Theorem best_thumbnail_spec (thumbnails : option (list Thumbnail)) :
  match best_thumbnail thumbnails with
  | None => thumbnails = None \/ thumbnails = Some []
  | Some best =>
      exists before after,
        thumbnails = Some (before ++ best :: after)
        /\ Forall (fun t => (preference t < preference best)%Z) before
        /\ Forall (fun t => (preference t <= preference best)%Z) after
  end.
Proof.
  destruct thumbnails as [[|t rest]|]; simpl; auto.
  destruct (max_by_spec preference rest [] t []) as (b & r & a & Heq & -> & Hb & Ha);
    [constructor|constructor|].
  exists b, a. simpl in Heq. rewrite Heq. auto.
Qed.

(** X20. The two filters never share a format: [get_audio_only_formats]
    keeps, in order, the formats whose [vcodec] is ["none"] and whose
    [acodec] is not, [get_video_only_formats] those whose [acodec] is
    ["none"] and whose [vcodec] is not. On an object without metadata
    both raise [TypeError]. *)
Theorem audio_and_video_only_are_disjoint (formats : option (list Format)) :
  match get_audio_only_formats formats, get_video_only_formats formats with
  | Ok audio, Ok video =>
      exists fs,
        formats = Some fs
        /\ (forall f, f ∈ audio <->
              f ∈ fs /\ vcodec f = Some (py "none") /\ acodec f <> Some (py "none"))
        /\ (forall f, f ∈ video <->
              f ∈ fs /\ acodec f = Some (py "none") /\ vcodec f <> Some (py "none"))
        /\ (forall f, ~ (f ∈ audio /\ f ∈ video))
  | Raise e1, Raise e2 => formats = None /\ e1 = TypeError /\ e2 = TypeError
  | _, _ => False
  end.
Proof.
  destruct formats as [fs|]; simpl; [|auto].
  assert (forall f, f ∈ filter (fun f => is_none_codec (vcodec f)
                                         && negb (is_none_codec (acodec f)) = true) fs
                    <-> f ∈ fs /\ vcodec f = Some (py "none")
                        /\ acodec f <> Some (py "none")) as Haudio.
  { intros f. rewrite list_elem_of_filter, andb_true_iff, negb_true_iff.
    unfold is_none_codec. rewrite bool_decide_eq_true, bool_decide_eq_false. tauto. }
  assert (forall f, f ∈ filter (fun f => is_none_codec (acodec f)
                                         && negb (is_none_codec (vcodec f)) = true) fs
                    <-> f ∈ fs /\ acodec f = Some (py "none")
                        /\ vcodec f <> Some (py "none")) as Hvideo.
  { intros f. rewrite list_elem_of_filter, andb_true_iff, negb_true_iff.
    unfold is_none_codec. rewrite bool_decide_eq_true, bool_decide_eq_false. tauto. }
  exists fs. split; [reflexivity|]. split; [exact Haudio|]. split; [exact Hvideo|].
  intros f [Ha Hv]. apply Haudio in Ha. apply Hvideo in Hv. tauto.
Qed.

Lemma max_by_float_elem {A : Type} (key : A -> float) (rest : list A) (first : A) :
  max_by_float key first rest ∈ first :: rest.
Proof.
  unfold max_by_float. revert first. induction rest as [|x rest IH]; intros first; simpl.
  - left.
  - destruct (PrimFloat.ltb (key first) (key x)).
    + right. apply IH.
    + specialize (IH first). apply elem_of_cons in IH as [->|IH];
        [left|right; right; exact IH].
Qed.

(** X27. [get_best_audio] returns [None] exactly when no audio-only
    format has the codec in its [acodec]; otherwise it returns one of the
    audio-only formats whose [acodec] has the codec. Without metadata it
    raises [TypeError]. *)
Theorem get_best_audio_spec (formats : option (list Format)) (codec : pystr) :
  match get_best_audio formats codec with
  | Ok None =>
      exists fs,
        formats = Some fs
        /\ forall f, f ∈ fs -> vcodec f = Some (py "none") ->
                      acodec f <> Some (py "none") -> has_codec codec f = false
  | Ok (Some best) =>
      exists fs,
        formats = Some fs /\ best ∈ fs
        /\ vcodec best = Some (py "none") /\ acodec best <> Some (py "none")
        /\ has_codec codec best = true
  | Raise e => formats = None /\ e = TypeError
  end.
Proof.
  unfold get_best_audio. destruct formats as [fs|]; simpl; [|auto].
  set (audio := filter _ fs).
  assert (forall f, f ∈ audio <->
            f ∈ fs /\ vcodec f = Some (py "none") /\ acodec f <> Some (py "none"))
    as Haudio.
  { intros f. unfold audio. rewrite list_elem_of_filter, andb_true_iff, negb_true_iff.
    unfold is_none_codec. rewrite bool_decide_eq_true, bool_decide_eq_false. tauto. }
  destruct (filter (fun f => has_codec codec f = true) audio) as [|f rest] eqn:Hsel.
  - exists fs. split; [reflexivity|]. intros f Hf Hv Ha.
    destruct (has_codec codec f) eqn:Hc; [|reflexivity].
    assert (f ∈ filter (fun f => has_codec codec f = true) audio) as Hin
      by (apply list_elem_of_filter; split; [exact Hc|apply Haudio; auto]).
    rewrite Hsel in Hin. inversion Hin.
  - pose proof (max_by_float_elem tbr_or_0 rest f) as Hin.
    rewrite <- Hsel in Hin. apply list_elem_of_filter in Hin as [Hc Hin].
    apply Haudio in Hin as (Hfs & Hv & Ha). exists fs. auto.
Qed.

(** ** Dicts that change *)

Lemma dict_lookup_set (items : list (pystr * pyval)) (key key' : pystr) (value : pyval) :
  Py.dict_lookup (Dict.set items key value) key' =
    if decide (key = key') then Some value else Py.dict_lookup items key'.
Proof.
  induction items as [|[k v] items IH]; simpl.
  - destruct (decide (key = key')); reflexivity.
  - destruct (decide (k = key)) as [->|Hk]; simpl.
    + destruct (decide (key = key')); reflexivity.
    + rewrite IH. destruct (decide (k = key')) as [->|]; [|reflexivity].
      destruct (decide (key = key')); [congruence|reflexivity].
Qed.

Lemma dict_lookup_remove (items : list (pystr * pyval)) (key key' : pystr) :
  Py.dict_lookup (Dict.remove items key) key' =
    if decide (key = key') then None else Py.dict_lookup items key'.
Proof.
  unfold Dict.remove. induction items as [|[k v] items IH]; simpl.
  - destruct (decide (key = key')); reflexivity.
  - rewrite filter_cons. simpl. destruct (decide (k <> key)) as [Hk|Hk]; simpl.
    + rewrite IH. destruct (decide (k = key')) as [->|]; [|reflexivity].
      destruct (decide (key = key')); [congruence|reflexivity].
    + apply dec_stable in Hk. subst k. rewrite IH.
      destruct (decide (key = key')); reflexivity.
Qed.

Lemma dict_remove_absent (items : list (pystr * pyval)) (key : pystr) :
  Py.dict_lookup items key = None -> Dict.remove items key = items.
Proof.
  unfold Dict.remove. induction items as [|[k v] items IH]; simpl; [reflexivity|].
  destruct (decide (k = key)) as [->|Hk]; [discriminate|]. intros H.
  rewrite filter_cons_True by exact Hk. rewrite IH by exact H. reflexivity.
Qed.

(** ** src/manager/prompt_manager.py *)

Section PromptFacts.

Variable w : world.

(** X21. After [add_prompt] on a manager whose prompts are a dict,
    [get_prompt] of the name gives the prompt with its model and text and
    the other names keep their prompts, whether the file could be written
    or not: when [open] fails the call raises and the file keeps what it
    held, while the prompts in memory already have the new one; when it
    succeeds the file holds the prompts in memory. *)
Theorem add_prompt_then_get (name text model : pystr) (pm : PromptManager)
    (files : json_files) (items : list (pystr * pyval)) :
  prompts pm = PyDict items ->
  exists r pm' files',
    add_prompt w name text model pm files = (r, pm', files')
    /\ get_prompt pm' name = Ok (prompt model text)
    /\ (forall other, other <> name -> get_prompt pm' other = get_prompt pm other)
    /\ match open_for_writing w (config_path pm) with
       | Some e => r = Raises (Std e) /\ files' = files
       | None => r = Returns tt
                 /\ files' = <[config_path pm := Ok (prompts pm')]> files
       end.
Proof.
  intros Hp. unfold add_prompt, save_prompts, json_dump, get_prompt.
  rewrite Hp. simpl.
  destruct (open_for_writing w (config_path pm)) as [e|]; do 3 eexists;
    (split; [reflexivity|]); simpl; rewrite dict_lookup_set;
    (split; [destruct (decide (name = name)); [reflexivity|congruence]|]);
    (split; [|auto]); intros other Hother; rewrite dict_lookup_set;
    destruct (decide (name = other)); congruence.
Qed.

(** X22. [delete_prompt] of a name that is not the default one, on a
    manager whose prompts are a dict: a name that is not there raises
    [KeyError] and changes neither the prompts nor the file; a name that
    is there is gone afterwards ([get_prompt] gives [None]), the other
    names keep their prompts, and the file is written as by
    [add_prompt]. *)
Theorem delete_prompt_spec (name : pystr) (pm : PromptManager) (files : json_files)
    (items : list (pystr * pyval)) :
  prompts pm = PyDict items ->
  name <> DEFAULT_PROMPT_NAME ->
  match Py.dict_lookup items name with
  | None => delete_prompt w name pm files = (Raises KeyError, pm, files)
  | Some _ =>
      exists r pm' files',
        delete_prompt w name pm files = (r, pm', files')
        /\ get_prompt pm' name = Ok PyNone
        /\ (forall other, other <> name -> get_prompt pm' other = get_prompt pm other)
        /\ match open_for_writing w (config_path pm) with
           | Some e => r = Raises (Std e) /\ files' = files
           | None => r = Returns tt
                     /\ files' = <[config_path pm := Ok (prompts pm')]> files
           end
  end.
Proof.
  intros Hp Hname. unfold delete_prompt, save_prompts, json_dump, get_prompt.
  destruct (decide (name = DEFAULT_PROMPT_NAME)); [contradiction|].
  rewrite Hp. simpl. destruct (Py.dict_lookup items name) as [v|]; [|reflexivity].
  destruct (open_for_writing w (config_path pm)) as [e|]; do 3 eexists;
    (split; [reflexivity|]); simpl; rewrite dict_lookup_remove;
    (split; [destruct (decide (name = name)); [reflexivity|congruence]|]);
    (split; [|auto]); intros other Hother; rewrite dict_lookup_remove;
    destruct (decide (name = other)); congruence.
Qed.

(** X23. The default prompt cannot be deleted: [delete_prompt] of its
    name returns at once, with the manager and the files as they were,
    and after [delete_prompt] of any name a default prompt that was there
    is still there, unchanged. *)
Theorem default_prompt_stays (name : pystr) (pm : PromptManager) (files : json_files)
    (items : list (pystr * pyval)) (v : pyval) :
  prompts pm = PyDict items ->
  Py.dict_lookup items DEFAULT_PROMPT_NAME = Some v ->
  delete_prompt w DEFAULT_PROMPT_NAME pm files = (Returns tt, pm, files)
  /\ get_prompt (snd (fst (delete_prompt w name pm files))) DEFAULT_PROMPT_NAME = Ok v.
Proof.
  intros Hp Hv. split.
  - unfold delete_prompt. destruct (decide _); [reflexivity|congruence].
  - unfold delete_prompt, save_prompts, json_dump, get_prompt.
    destruct (decide (name = DEFAULT_PROMPT_NAME)).
    + simpl. rewrite Hp. simpl. rewrite Hv. reflexivity.
    + rewrite Hp. simpl. destruct (Py.dict_lookup items name); simpl.
      * destruct (open_for_writing w (config_path pm)); simpl;
          rewrite dict_lookup_remove;
          (destruct (decide (name = DEFAULT_PROMPT_NAME)); [contradiction|]);
          rewrite Hv; reflexivity.
      * rewrite Hp. simpl. rewrite Hv. reflexivity.
Qed.

End PromptFacts.

Lemma add_prompt_then_get_witness :
  exists r pm' files',
    add_prompt (read_only PyNone) (py "Short") (py "Sum up: {cc_text}") (py "gemini")
      {| prompts := PyDict []; config_path := py "prompts.json" |} ∅
    = (r, pm', files')
    /\ get_prompt pm' (py "Short") = Ok (prompt (py "gemini") (py "Sum up: {cc_text}"))
    /\ r = Raises (Std OSError) /\ files' = ∅.
Proof.
  destruct (add_prompt_then_get (read_only PyNone) (py "Short") (py "Sum up: {cc_text}")
              (py "gemini") {| prompts := PyDict []; config_path := py "prompts.json" |}
              ∅ [] eq_refl) as (r & pm' & files' & Hadd & Hget & _ & Hfile).
  exists r, pm', files'. simpl in Hfile. tauto.
Defined.

Lemma delete_prompt_spec_witness :
  delete_prompt (serving PyNone) (py "Short")
    {| prompts := PyDict [(DEFAULT_PROMPT_NAME, prompt (py "m") (py "t"))];
       config_path := py "prompts.json" |} ∅
  = (Raises KeyError,
     {| prompts := PyDict [(DEFAULT_PROMPT_NAME, prompt (py "m") (py "t"))];
        config_path := py "prompts.json" |}, ∅).
Proof.
  apply (delete_prompt_spec (serving PyNone) (py "Short")
           {| prompts := PyDict [(DEFAULT_PROMPT_NAME, prompt (py "m") (py "t"))];
              config_path := py "prompts.json" |} ∅
           [(DEFAULT_PROMPT_NAME, prompt (py "m") (py "t"))] eq_refl).
  discriminate.
Defined.

Lemma default_prompt_stays_witness :
  delete_prompt (serving PyNone) DEFAULT_PROMPT_NAME
    {| prompts := PyDict [(DEFAULT_PROMPT_NAME, prompt (py "m") (py "t"));
                          (py "Short", prompt (py "m") (py "s"))];
       config_path := py "prompts.json" |} ∅
  = (Returns tt,
     {| prompts := PyDict [(DEFAULT_PROMPT_NAME, prompt (py "m") (py "t"));
                           (py "Short", prompt (py "m") (py "s"))];
        config_path := py "prompts.json" |}, ∅)
  /\ get_prompt
       (snd (fst (delete_prompt (serving PyNone) (py "Short")
                    {| prompts := PyDict [(DEFAULT_PROMPT_NAME, prompt (py "m") (py "t"));
                                          (py "Short", prompt (py "m") (py "s"))];
                       config_path := py "prompts.json" |} ∅)))
       DEFAULT_PROMPT_NAME
     = Ok (prompt (py "m") (py "t")).
Proof.
  apply (default_prompt_stays (serving PyNone) (py "Short")
           {| prompts := PyDict [(DEFAULT_PROMPT_NAME, prompt (py "m") (py "t"));
                                 (py "Short", prompt (py "m") (py "s"))];
              config_path := py "prompts.json" |} ∅
           [(DEFAULT_PROMPT_NAME, prompt (py "m") (py "t"));
            (py "Short", prompt (py "m") (py "s"))]
           (prompt (py "m") (py "t"))); reflexivity.
Defined.

(** ** src/common/cc_parser.py: [extract_comments] and [extract_all] *)

Section CommentFacts.

Variable w : world.

Lemma comments_path_differs (path : pystr) : comments_path path <> path.
Proof.
  intros H. apply (f_equal length) in H. unfold comments_path in H.
  rewrite length_app, length_take in H.
  change (length (py ".comments.json")) with 14%nat in H. lia.
Qed.

Lemma pop_keys_dict (keys : list pystr) (items : list (pystr * pyval)) :
  pop_keys (PyDict items) keys = Returns (PyDict (fold_left Dict.remove keys items)).
Proof.
  revert items. induction keys as [|k keys IH]; intros items; [reflexivity|].
  simpl. apply IH.
Qed.

Lemma tag_comment_dict (remove_keys : option (list pystr)) (display_id : pyval)
    (items : list (pystr * pyval)) :
  tag_comment remove_keys display_id (PyDict items)
  = Returns (PyDict (tagged_items remove_keys display_id items)).
Proof.
  unfold tag_comment, tagged_items. destruct remove_keys as [keys|]; simpl.
  - rewrite pop_keys_dict. reflexivity.
  - reflexivity.
Qed.

Lemma dict_lookup_fold_remove (keys : list pystr) (items : list (pystr * pyval))
    (key : pystr) :
  Py.dict_lookup (fold_left Dict.remove keys items) key =
    if decide (key ∈ keys) then None else Py.dict_lookup items key.
Proof.
  revert items. induction keys as [|k keys IH]; intros items; simpl.
  - destruct (decide (key ∈ [])) as [H|]; [inversion H|reflexivity].
  - rewrite IH, dict_lookup_remove.
    destruct (decide (key ∈ keys)) as [Hin|Hin],
             (decide (key ∈ k :: keys)) as [Hin'|Hin'],
             (decide (k = key)) as [Hk|Hk];
      try reflexivity; exfalso; rewrite elem_of_cons in Hin'; intuition congruence.
Qed.

(** What a tagged comment has under each key. *)
Lemma tagged_items_lookup (remove_keys : option (list pystr)) (display_id : pyval)
    (items : list (pystr * pyval)) (key : pystr) :
  Py.dict_lookup (tagged_items remove_keys display_id items) key =
    if decide (key = py "display_id") then Some display_id
    else if decide (key ∈ default [] remove_keys) then None
    else Py.dict_lookup items key.
Proof.
  unfold tagged_items. rewrite dict_lookup_set, dict_lookup_fold_remove.
  destruct (decide (py "display_id" = key)), (decide (key = py "display_id"));
    congruence.
Qed.

Lemma tag_comments_dicts (remove_keys : option (list pystr)) (display_id : pyval)
    (comments : list pyval) :
  forallb is_dict comments = true ->
  exists output,
    tag_comments remove_keys display_id comments = Returns output
    /\ length output = length comments
    /\ Forall2
         (fun c c' =>
            exists items,
              c = PyDict items
              /\ c' = PyDict (tagged_items remove_keys display_id items))
         comments output.
Proof.
  induction comments as [|c comments IH]; simpl.
  - exists []. auto.
  - intros [Hc Hall]%andb_true_iff. destruct c; try discriminate.
    destruct (IH Hall) as (output & Hout & Hlen & Htagged).
    rewrite tag_comment_dict. simpl. rewrite Hout. simpl.
    eexists. split; [reflexivity|]. split; [simpl; congruence|].
    constructor; eauto.
Qed.

(** X24. [extract_all] on an info file with ["display_id"] and a
    non-empty list of comments that are dicts, when both files can be
    written: the comments go to the file named by the path without its
    last five characters and [.comments.json], each without
    ["_time_text"], ["author_thumbnail"] and ["author_url"], with the
    ["display_id"] of the file, and with its other items as they were; the
    info file is written back without ["comments"]. *)
Theorem extract_all_moves_comments (path : pystr) (files : json_files)
    (items : list (pystr * pyval)) (display_id : pyval) (comments : list pyval) :
  files !! path = Some (Ok (PyDict items)) ->
  Py.dict_lookup items (py "display_id") = Some display_id ->
  Py.dict_lookup items (py "comments") = Some (PyList comments) ->
  comments <> [] ->
  forallb is_dict comments = true ->
  open_for_writing w path = None ->
  open_for_writing w (comments_path path) = None ->
  exists output,
    extract_all w path files =
      (Returns tt,
       <[path := Ok (PyDict (Dict.remove items (py "comments")))]>
         (<[comments_path path := Ok (PyList output)]> files))
    /\ Forall2
         (fun c c' =>
            exists c_items c_items',
              c = PyDict c_items /\ c' = PyDict c_items'
              /\ forall key,
                   Py.dict_lookup c_items' key =
                     if decide (key = py "display_id") then Some display_id
                     else if decide (key ∈ removed_comment_keys) then None
                     else Py.dict_lookup c_items key)
         comments output.
Proof.
  intros Hfile Hid Hcomments Hne Hdicts Hopen1 Hopen2.
  destruct (tag_comments_dicts (Some removed_comment_keys) display_id comments Hdicts)
    as (output & Hout & Hlen & Htagged).
  exists output. split.
  - unfold extract_all, _load_json, json_load. rewrite Hfile. simpl.
    unfold extract_comments, _load_json. simpl. rewrite Hid. simpl.
    rewrite Hcomments. simpl.
    change [py "_time_text"; py "author_thumbnail"; py "author_url"]
      with removed_comment_keys.
    rewrite Hout.
    destruct output as [|o output].
    { destruct comments; [congruence|discriminate]. }
    unfold json_dump. rewrite Hopen2, Hopen1. reflexivity.
  - eapply Forall2_impl; [exact Htagged|]. simpl.
    intros c c' (c_items & -> & ->). eexists _, _. split; [reflexivity|].
    split; [reflexivity|]. intros key.
    apply (tagged_items_lookup (Some removed_comment_keys)).
Qed.

(** X25. An info file without ["display_id"] makes [extract_all] raise
    [KeyError] before anything is written, whether the file has comments
    or not. *)
Theorem extract_all_needs_display_id (path : pystr) (files : json_files)
    (items : list (pystr * pyval)) :
  files !! path = Some (Ok (PyDict items)) ->
  Py.dict_lookup items (py "display_id") = None ->
  extract_all w path files = (Raises KeyError, files).
Proof.
  intros Hfile Hid. unfold extract_all, _load_json, json_load. rewrite Hfile. simpl.
  unfold extract_comments. simpl. rewrite Hid. reflexivity.
Qed.

Lemma extract_comments_given (path : pystr) (content : pyval)
    (remove_keys : option (list pystr)) (files files' : json_files) (result : pyval) :
  is_None content = false ->
  extract_comments w path content remove_keys None true files = (Returns result, files') ->
  exists items,
    content = PyDict items
    /\ is_Some (Py.dict_lookup items (py "display_id"))
    /\ result = PyDict (Dict.remove items (py "comments"))
    /\ (files' = files
        \/ exists output, files' = <[comments_path path := Ok (PyList output)]> files).
Proof.
  intros Hnone. unfold extract_comments. rewrite Hnone. simpl.
  destruct content as [| | | | | |items]; try discriminate. simpl.
  destruct (Py.dict_lookup items (py "display_id")) as [display_id|] eqn:Hid;
    [|discriminate]. simpl. clear Hnone.
  destruct (is_None (default PyNone _)).
  { intros [= <- <-]. exists items. eauto. }
  destruct (outcome_bind _ _) as [output|]; [|discriminate].
  destruct output as [|o output].
  { intros [= <- <-]. exists items. eauto. }
  unfold json_dump. destruct (open_for_writing w (comments_path path)); [discriminate|].
  intros [= <- <-]. exists items. eauto 10.
Qed.

(** X26. A second run of [extract_all] changes nothing: when a run has
    returned, running it again on the files it left returns too and
    leaves the same files. *)
Theorem extract_all_twice (path : pystr) (files files' : json_files) :
  extract_all w path files = (Returns tt, files') ->
  extract_all w path files' = (Returns tt, files').
Proof.
  unfold extract_all at 1. unfold _load_json, json_load.
  destruct (files !! path) as [[content|]|] eqn:Hfile; try discriminate. simpl.
  destruct (extract_comments w path content _ None true files)
    as [[result|] files1] eqn:Hex; [|discriminate].
  destruct (is_None content) eqn:Hnone.
  { destruct content; try discriminate. unfold extract_comments in Hex.
    simpl in Hex. unfold _load_json, json_load in Hex. rewrite Hfile in Hex.
    discriminate. }
  apply (extract_comments_given _ _ _ _ _ _ Hnone) in Hex
    as (items & -> & [display_id Hid] & -> & Hfiles1).
  unfold json_dump. destruct (open_for_writing w path) eqn:Hopen; [discriminate|].
  intros [= <-].
  set (content' := PyDict (Dict.remove items (py "comments"))).
  unfold extract_all, _load_json, json_load. rewrite lookup_insert_eq. simpl.
  unfold extract_comments. simpl.
  rewrite dict_lookup_remove. simpl. rewrite Hid. simpl.
  rewrite dict_lookup_remove. simpl.
  rewrite dict_remove_absent
    by (rewrite dict_lookup_remove; destruct (decide _); [reflexivity|congruence]).
  unfold json_dump. rewrite Hopen. fold content'.
  rewrite insert_insert_eq. reflexivity.
Qed.

End CommentFacts.

Lemma extract_all_moves_comments_witness :
  exists output,
    extract_all (serving PyNone) (py "abc.info.json")
      (<[py "abc.info.json" :=
           Ok (info_with_comments "abc" [comment "hi" "u1"; comment "yo" "u2"])]> ∅)
    = (Returns tt,
       <[py "abc.info.json" :=
           Ok (PyDict [(py "display_id", PyStr (py "abc"));
                       (py "title", PyStr (py "A title"))])]>
         (<[py "abc.info.comments.json" := Ok (PyList output)]>
            (<[py "abc.info.json" :=
                 Ok (info_with_comments "abc" [comment "hi" "u1"; comment "yo" "u2"])]>
               ∅)))
    /\ length output = 2%nat.
Proof.
  destruct (extract_all_moves_comments (serving PyNone) (py "abc.info.json")
              (<[py "abc.info.json" :=
                   Ok (info_with_comments "abc" [comment "hi" "u1"; comment "yo" "u2"])]> ∅)
              [(py "display_id", PyStr (py "abc")); (py "title", PyStr (py "A title"));
               (py "comments", PyList [comment "hi" "u1"; comment "yo" "u2"])]
              (PyStr (py "abc")) [comment "hi" "u1"; comment "yo" "u2"])
    as (output & Hrun & Htagged); try reflexivity; [discriminate|].
  exists output. split; [exact Hrun|].
  apply Forall2_length in Htagged. symmetry. exact Htagged.
Defined.

Lemma extract_all_needs_display_id_witness :
  extract_all (serving PyNone) (py "abc.info.json")
    (<[py "abc.info.json" := Ok (PyDict [(py "comments", PyList [comment "hi" "u1"])])]> ∅)
  = (Raises KeyError,
     <[py "abc.info.json" := Ok (PyDict [(py "comments", PyList [comment "hi" "u1"])])]> ∅).
Proof.
  apply (extract_all_needs_display_id (serving PyNone) (py "abc.info.json") _
           [(py "comments", PyList [comment "hi" "u1"])]); reflexivity.
Defined.

Lemma extract_all_twice_witness :
  extract_all (serving PyNone) (py "abc.info.json")
    (snd (extract_all (serving PyNone) (py "abc.info.json")
            (<[py "abc.info.json" := Ok (info_with_comments "abc" [comment "hi" "u1"])]> ∅)))
  = (Returns tt,
     snd (extract_all (serving PyNone) (py "abc.info.json")
            (<[py "abc.info.json" := Ok (info_with_comments "abc" [comment "hi" "u1"])]> ∅))).
Proof.
  apply (extract_all_twice (serving PyNone) (py "abc.info.json")
           (<[py "abc.info.json" := Ok (info_with_comments "abc" [comment "hi" "u1"])]> ∅)).
  vm_compute. reflexivity.
Defined.
